(** * agify: a Go client for the agify.io age-prediction service

    A shallow embedding of the client (package [agify]) together with the
    parts of the Go standard library it calls: [strings], [net/url],
    [net/http], [io], [errors] and [encoding/json].  Go strings are byte
    strings and are modelled by [string] (one [ascii] per byte); a Go
    [map[string][]string] is a [gmap string (list string)]; Go's [int] is a
    64-bit integer, modelled by [Z] with its range check written out. *)

From Stdlib Require Import ZArith NArith Ascii String.
From stdpp Require Import base option list gmap strings sorting.

Open Scope string_scope.
Open Scope list_scope.
Open Scope Z_scope.

(** ** Bytes and the [strings] package *)

Definition between (lo hi c : ascii) : bool :=
  (Ascii.leb lo c && Ascii.leb c hi)%bool.

Definition isLetter (c : ascii) : bool :=
  between "a" "z" c || between "A" "Z" c.

Definition isDigit (c : ascii) : bool := between "0" "9" c.

Definition isAlnum (c : ascii) : bool := isLetter c || isDigit c.

(** [c] is one of the bytes of [set]. *)
Fixpoint oneOf (set : string) (c : ascii) : bool :=
  match set with
  | "" => false
  | String d set' => Ascii.eqb c d || oneOf set' c
  end.

(** [strings.Cut(s, sep)] for a one-byte separator: the text before and
    after the first [sep], and whether [sep] occurs at all. *)
Fixpoint strings_Cut (sep : ascii) (s : string) : string * string * bool :=
  match s with
  | "" => ("", "", false)
  | String c s' =>
      if Ascii.eqb c sep then ("", s', true)
      else let '(before, after, found) := strings_Cut sep s' in
           (String c before, after, found)
  end.

(** [strings.LastIndex(s, sep)] for a one-byte separator, as the split it
    is used for: [Some (s[:i], s[i+1:])], or [None] when [i < 0]. *)
Fixpoint strings_CutLast (sep : ascii) (s : string) : option (string * string) :=
  match s with
  | "" => None
  | String c s' =>
      match strings_CutLast sep s' with
      | Some (before, after) => Some (String c before, after)
      | None => if Ascii.eqb c sep then Some ("", s') else None
      end
  end.

Definition strings_Contains (s : string) (c : ascii) : bool :=
  snd (strings_Cut c s).

Fixpoint strings_Count (s : string) (c : ascii) : nat :=
  match s with
  | "" => O
  | String d s' => ((if Ascii.eqb d c then 1 else 0) + strings_Count s' c)%nat
  end.

Definition strings_HasPrefix (s p : string) : bool := String.prefix p s.

Fixpoint strings_HasSuffix (s p : string) : bool :=
  String.eqb s p ||
  match s with
  | "" => false
  | String _ s' => strings_HasSuffix s' p
  end.

(** [s[:len(s)-1]] *)
Fixpoint dropLast (s : string) : string :=
  match s with
  | "" => ""
  | String c "" => ""
  | String c s' => String c (dropLast s')
  end.

Definition toLowerByte (c : ascii) : ascii :=
  if between "A" "Z" c then ascii_of_N (N_of_ascii c + 32) else c.

Definition toUpperByte (c : ascii) : ascii :=
  if between "a" "z" c then ascii_of_N (N_of_ascii c - 32) else c.

Fixpoint mapBytes (f : ascii -> ascii) (s : string) : string :=
  match s with
  | "" => ""
  | String c s' => String (f c) (mapBytes f s')
  end.

(** [strings.ToLower] on the ASCII text it is applied to here. *)
Definition strings_ToLower : string -> string := mapBytes toLowerByte.

(** ** Errors

    A Go [error] is an interface value; [nil] is [None] of [option error].
    The constructors are the error types the client can hand back. *)

Inductive error : Type :=
  | errorString (text : string)
      (** [errors.New(text)] *)
  | url_Error (Op URL : string) (Err : error)
      (** [*url.Error]: what [url.Parse] and the HTTP client return *)
  | url_EscapeError (s : string)
  | url_InvalidHostError (s : string)
  | json_SyntaxError
      (** [*json.SyntaxError]: the body is not a JSON text *)
  | json_UnmarshalTypeError (Value Field : string)
      (** [*json.UnmarshalTypeError]: a JSON value does not fit its target *)
  | io_ErrUnexpectedEOF
      (** the body ended before its announced length *)
  | net_OpError (text : string).
      (** a failure of the connection itself *)

(** A Go call that returns [(T, error)]. *)
Definition result (A : Type) : Type := (error + A)%type.

(** ** [net/url]: escaping *)

Inductive encoding : Type :=
  | encodePath
  | encodePathSegment
  | encodeHost
  | encodeZone
  | encodeUserPassword
  | encodeQueryComponent
  | encodeFragment.

Definition isHostMode (mode : encoding) : bool :=
  match mode with
  | encodeHost | encodeZone => true
  | _ => false
  end.

Definition isQueryMode (mode : encoding) : bool :=
  match mode with
  | encodeQueryComponent => true
  | _ => false
  end.

Definition ishex (c : ascii) : bool :=
  isDigit c || between "a" "f" c || between "A" "F" c.

Definition unhex (c : ascii) : N :=
  (if isDigit c then N_of_ascii c - 48
   else if between "a" "f" c then N_of_ascii c - 97 + 10
   else if between "A" "F" c then N_of_ascii c - 65 + 10
   else 0)%N.

(** The double quote, byte 34. *)
Definition dquote : ascii := ascii_of_N 34.

(** [shouldEscape(c, mode)]: must byte [c] be percent-encoded when it
    appears in the part of a URL that [mode] names. *)
Definition shouldEscape (c : ascii) (mode : encoding) : bool :=
  if isAlnum c then false
  else if isHostMode mode && (oneOf "!$&'()*+,;=:[]<>" c || Ascii.eqb c dquote)
  then false
  else if oneOf "-_.~" c then false
  else if oneOf "$&+,/:;=?@" c then
    match mode with
    | encodePath => Ascii.eqb c "?"
    | encodePathSegment => oneOf "/;,?" c
    | encodeUserPassword => oneOf "@/?:" c
    | encodeQueryComponent => true
    | encodeFragment => false
    | encodeHost | encodeZone => true
    end
  else if (match mode with encodeFragment => true | _ => false end)
          && oneOf "!()*" c
  then false
  else true.

Definition upperhex (n : N) : ascii :=
  match String.get (N.to_nat n) "0123456789ABCDEF" with
  | Some c => c
  | None => "0"%char
  end.

(** [c>>4] and [c&15] of a byte. *)
Definition hi4 (c : ascii) : N := (N_of_ascii c / 16)%N.
Definition lo4 (c : ascii) : N := (N_of_ascii c mod 16)%N.

Fixpoint escape (s : string) (mode : encoding) : string :=
  match s with
  | "" => ""
  | String c s' =>
      if Ascii.eqb c " " && isQueryMode mode then String "+" (escape s' mode)
      else if shouldEscape c mode then
        String "%" (String (upperhex (hi4 c)) (String (upperhex (lo4 c)) (escape s' mode)))
      else String c (escape s' mode)
  end.

(** First pass of [unescape]: every [%] is followed by two hex digits (and,
    in a host, what it encodes is allowed there). *)
Fixpoint unescape_check (s : string) (mode : encoding) : option error :=
  match s with
  | "" => None
  | String c rest =>
      if Ascii.eqb c "%" then
        match rest with
        | String h1 (String h2 rest') =>
            let esc := String c (String h1 (String h2 "")) in
            if negb (ishex h1 && ishex h2) then Some (url_EscapeError esc)
            else if (match mode with encodeHost => true | _ => false end)
                    && (unhex h1 <? 8)%N && negb (String.eqb esc "%25")
            then Some (url_EscapeError esc)
            else if (match mode with encodeZone => true | _ => false end)
                    && negb (String.eqb esc "%25")
                    && negb (N.eqb (unhex h1 * 16 + unhex h2) 32)
                    && shouldEscape (ascii_of_N (unhex h1 * 16 + unhex h2)) encodeHost
            then Some (url_EscapeError esc)
            else unescape_check rest' mode
        | _ => Some (url_EscapeError s)
        end
      else if isHostMode mode && (N_of_ascii c <? 128)%N && shouldEscape c encodeHost
      then Some (url_InvalidHostError (String c ""))
      else unescape_check rest mode
  end.

(** Second pass of [unescape], run on a string the first pass accepted. *)
Fixpoint unescape_decode (s : string) (mode : encoding) : string :=
  match s with
  | "" => ""
  | String c rest =>
      if Ascii.eqb c "%" then
        match rest with
        | String h1 (String h2 rest') =>
            String (ascii_of_N (unhex h1 * 16 + unhex h2)) (unescape_decode rest' mode)
        | _ => String c (unescape_decode rest mode)
        end
      else if Ascii.eqb c "+" && isQueryMode mode then String " " (unescape_decode rest mode)
      else String c (unescape_decode rest mode)
  end.

Definition unescape (s : string) (mode : encoding) : result string :=
  match unescape_check s mode with
  | Some e => inl e
  | None => inr (unescape_decode s mode)
  end.

Definition QueryEscape (s : string) : string := escape s encodeQueryComponent.

Definition QueryUnescape (s : string) : result string := unescape s encodeQueryComponent.

(** ** [net/url]: query values *)

(** [url.Values] is [map[string][]string]. *)
Abbreviation Values := (gmap string (list string)).

(** [v.Add(key, value)]: [v[key] = append(v[key], value)]. *)
Definition Values_Add (v : Values) (key value : string) : Values :=
  <[key := (v !!! key) ++ [value]]> v.

(** [v.Get(key)]: the first value of [key], or the empty string. *)
Definition Values_Get (v : Values) (key : string) : string :=
  match v !!! key with
  | [] => ""
  | x :: _ => x
  end.

(** The successive values of [key] in the loop
    [for query != "" { key, query, _ = strings.Cut(query, "&"); ... }]. *)
Fixpoint pieces (sep : ascii) (s : string) : list string :=
  match s with
  | "" => []
  | String c s' =>
      if Ascii.eqb c sep then "" :: pieces sep s'
      else match pieces sep s' with
           | [] => [String c ""]
           | p :: ps => String c p :: ps
           end
  end.

(** One turn of the loop of [parseQuery]: [m] and [err] before and after. *)
Definition parseQuery_step (st : Values * option error) (key : string)
  : Values * option error :=
  let '(m, err) := st in
  if strings_Contains key ";" then
    (m, Some (errorString "invalid semicolon separator in query"))
  else if String.eqb key "" then (m, err)
  else
    let '(key, value, _) := strings_Cut "=" key in
    match QueryUnescape key with
    | inl err1 => (m, Some (default err1 err))
    | inr key =>
        match QueryUnescape value with
        | inl err1 => (m, Some (default err1 err))
        | inr value => (Values_Add m key value, err)
        end
    end.

Definition ParseQuery (query : string) : Values * option error :=
  foldl parseQuery_step (∅, None) (pieces "&" query).

(** Go compares strings byte by byte. *)
Definition string_le (a b : string) : Prop := String.leb a b.

Definition sortedKeys (v : Values) : list string :=
  merge_sort string_le (elements (dom v)).

(** [v.Encode()]: [key=value] pairs joined by [&], keys in sorted order,
    the values of one key in their own order. *)
Definition Values_Encode (v : Values) : string :=
  String.concat "&"
    (flat_map
       (fun k => map (fun x => QueryEscape k +:+ "=" +:+ QueryEscape x) (v !!! k))
       (sortedKeys v)).

#[global] Instance result_ret : MRet result := fun A a => inr a.

#[global] Instance result_bind : MBind result :=
  fun A B k r => match r with inl e => inl e | inr a => k a end.

(** ** [net/url]: parsing and printing a URL *)

Record Userinfo : Type := {
  username : string;
  password : string;
  passwordSet : bool
}.

Record URL : Type := {
  Scheme : string;
  Opaque : string;
  User : option Userinfo;
  Host : string;
  Path : string;
  RawPath : string;
  OmitHost : bool;
  ForceQuery : bool;
  RawQuery : string;
  Fragment : string;
  RawFragment : string
}.

(** [new(URL)] *)
Definition newURL : URL :=
  {| Scheme := ""; Opaque := ""; User := None; Host := ""; Path := "";
     RawPath := ""; OmitHost := false; ForceQuery := false; RawQuery := "";
     Fragment := ""; RawFragment := "" |}.

(** [u.RawQuery = q] *)
Definition setRawQuery (u : URL) (q : string) : URL :=
  {| Scheme := Scheme u; Opaque := Opaque u; User := User u; Host := Host u;
     Path := Path u; RawPath := RawPath u; OmitHost := OmitHost u;
     ForceQuery := ForceQuery u; RawQuery := q;
     Fragment := Fragment u; RawFragment := RawFragment u |}.

Fixpoint allBytes (p : ascii -> bool) (s : string) : bool :=
  match s with
  | "" => true
  | String c s' => p c && allBytes p s'
  end.

Definition stringContainsCTLByte (s : string) : bool :=
  negb (allBytes (fun c => negb ((N_of_ascii c <? 32)%N || Ascii.eqb c (ascii_of_N 127))) s).

(** The loop of [getScheme]: no scheme, a colon in first place, or the
    scheme and what follows its colon. *)
Inductive schemeScan : Type :=
  | scanNone
  | scanMissing
  | scanFound (scheme rest : string).

Fixpoint scanScheme (first : bool) (s : string) : schemeScan :=
  match s with
  | "" => scanNone
  | String c s' =>
      let continue :=
        match scanScheme false s' with
        | scanFound scheme rest => scanFound (String c scheme) rest
        | other => other
        end in
      if isLetter c then continue
      else if isDigit c || oneOf "+-." c then
        if first then scanNone else continue
      else if Ascii.eqb c ":" then
        if first then scanMissing else scanFound "" s'
      else scanNone
  end.

Definition getScheme (rawURL : string) : result (string * string) :=
  match scanScheme true rawURL with
  | scanNone => inr ("", rawURL)
  | scanMissing => inl (errorString "missing protocol scheme")
  | scanFound scheme rest => inr (scheme, rest)
  end.

Definition validOptionalPort (port : string) : bool :=
  match port with
  | "" => true
  | String c digits => Ascii.eqb c ":" && allBytes isDigit digits
  end.

(** [fmt.Errorf("invalid port %q after host", colonPort)] *)
Definition invalidPort (colonPort : string) : error :=
  errorString ("invalid port " +:+ String dquote colonPort +:+ String dquote " after host").

Definition parseHost (host : string) : result string :=
  if strings_HasPrefix host "[" then
    match strings_CutLast "]" host with
    | None => inl (errorString "missing ']' in host")
    | Some (beforeBracket, colonPort) =>
        if negb (validOptionalPort colonPort) then inl (invalidPort colonPort)
        else
          match String.index 0 "%25" beforeBracket with
          | Some zone =>
              host1 ← unescape (String.substring 0 zone beforeBracket) encodeHost;
              host2 ← unescape (String.substring zone (String.length beforeBracket - zone)
                                  beforeBracket) encodeZone;
              host3 ← unescape (String "]" colonPort) encodeHost;
              mret (host1 +:+ host2 +:+ host3)
          | None => unescape host encodeHost
          end
    end
  else
    match strings_CutLast ":" host with
    | Some (_, port) =>
        if negb (validOptionalPort (String ":" port)) then inl (invalidPort (String ":" port))
        else unescape host encodeHost
    | None => unescape host encodeHost
    end.

Definition validUserinfo (s : string) : bool :=
  allBytes (fun c => isAlnum c || oneOf "-._:~!$&'()*+,;=%@" c) s.

Definition parseAuthority (authority : string) : result (option Userinfo * string) :=
  match strings_CutLast "@" authority with
  | None => host ← parseHost authority; mret (None, host)
  | Some (userinfo, hostport) =>
      host ← parseHost hostport;
      if negb (validUserinfo userinfo) then inl (errorString "net/url: invalid userinfo")
      else if negb (strings_Contains userinfo ":") then
        name ← unescape userinfo encodeUserPassword;
        mret (Some {| username := name; password := ""; passwordSet := false |}, host)
      else
        let '(name, pass, _) := strings_Cut ":" userinfo in
        name ← unescape name encodeUserPassword;
        pass ← unescape pass encodeUserPassword;
        mret (Some {| username := name; password := pass; passwordSet := true |}, host)
  end.

(** [u.setPath(p)] *)
Definition setPath (u : URL) (p : string) : result URL :=
  path ← unescape p encodePath;
  mret {| Scheme := Scheme u; Opaque := Opaque u; User := User u; Host := Host u;
          Path := path;
          RawPath := if String.eqb p (escape path encodePath) then "" else p;
          OmitHost := OmitHost u; ForceQuery := ForceQuery u; RawQuery := RawQuery u;
          Fragment := Fragment u; RawFragment := RawFragment u |}.

(** [u.setFragment(f)] *)
Definition setFragment (u : URL) (f : string) : result URL :=
  frag ← unescape f encodeFragment;
  mret {| Scheme := Scheme u; Opaque := Opaque u; User := User u; Host := Host u;
          Path := Path u; RawPath := RawPath u;
          OmitHost := OmitHost u; ForceQuery := ForceQuery u; RawQuery := RawQuery u;
          Fragment := frag;
          RawFragment := if String.eqb f (escape frag encodeFragment) then "" else f |}.

(** [s[2:]] *)
Definition drop2 (s : string) : string :=
  match s with
  | String _ (String _ s') => s'
  | _ => ""
  end.

(** [parse(rawURL, false)]: the URL without its fragment. *)
Definition parse (rawURL : string) : result URL :=
  if stringContainsCTLByte rawURL then
    inl (errorString "net/url: invalid control character in URL")
  else if String.eqb rawURL "*" then
    inr {| Scheme := ""; Opaque := ""; User := None; Host := ""; Path := "*";
           RawPath := ""; OmitHost := false; ForceQuery := false; RawQuery := "";
           Fragment := ""; RawFragment := "" |}
  else
    '(scheme, rest) ← getScheme rawURL;
    let scheme := strings_ToLower scheme in
    let '(rest, forceQuery, rawQuery) :=
      if strings_HasSuffix rest "?" && Nat.eqb (strings_Count rest "?") 1
      then (dropLast rest, true, "")
      else let '(before, after, _) := strings_Cut "?" rest in (before, false, after) in
    if negb (strings_HasPrefix rest "/") && negb (String.eqb scheme "") then
      inr {| Scheme := scheme; Opaque := rest; User := None; Host := ""; Path := "";
             RawPath := ""; OmitHost := false; ForceQuery := forceQuery;
             RawQuery := rawQuery; Fragment := ""; RawFragment := "" |}
    else if negb (strings_HasPrefix rest "/")
            && strings_Contains (strings_Cut "/" rest).1.1 ":" then
      inl (errorString "first path segment in URL cannot contain colon")
    else
      let withAuthority :=
        (negb (String.eqb scheme "") || negb (strings_HasPrefix rest "///"))
        && strings_HasPrefix rest "//" in
      '(user, host, rest, omitHost) ←
        (if withAuthority then
           let '(authority, tail, found) := strings_Cut "/" (drop2 rest) in
           '(user, host) ← parseAuthority authority;
           mret (user, host, if found then String "/" tail else "", false)
         else
           mret (None, "", rest,
                 negb (String.eqb scheme "") && strings_HasPrefix rest "/"));
      setPath {| Scheme := scheme; Opaque := ""; User := user; Host := host;
                 Path := ""; RawPath := ""; OmitHost := omitHost;
                 ForceQuery := forceQuery; RawQuery := rawQuery;
                 Fragment := ""; RawFragment := "" |} rest.

(** [url.Parse(rawURL)] *)
Definition url_Parse (rawURL : string) : result URL :=
  let '(u, frag, _) := strings_Cut "#" rawURL in
  match parse u with
  | inl err => inl (url_Error "parse" u err)
  | inr url =>
      if String.eqb frag "" then inr url
      else match setFragment url frag with
           | inl err => inl (url_Error "parse" rawURL err)
           | inr url => inr url
           end
  end.

(** [u.Query()]: the parsed [RawQuery], malformed pairs silently dropped. *)
Definition URL_Query (u : URL) : Values := (ParseQuery (RawQuery u)).1.

Definition validEncoded (s : string) (mode : encoding) : bool :=
  allBytes (fun c => oneOf "!$&'()*+,;=:@[]%" c || negb (shouldEscape c mode)) s.

Definition EscapedPath (u : URL) : string :=
  if negb (String.eqb (RawPath u) "") && validEncoded (RawPath u) encodePath
     && match unescape (RawPath u) encodePath with
        | inr p => String.eqb p (Path u)
        | inl _ => false
        end
  then RawPath u
  else if String.eqb (Path u) "*" then "*"
  else escape (Path u) encodePath.

Definition EscapedFragment (u : URL) : string :=
  if negb (String.eqb (RawFragment u) "") && validEncoded (RawFragment u) encodeFragment
     && match unescape (RawFragment u) encodeFragment with
        | inr f => String.eqb f (Fragment u)
        | inl _ => false
        end
  then RawFragment u
  else escape (Fragment u) encodeFragment.

Definition Userinfo_String (ui : Userinfo) : string :=
  escape (username ui) encodeUserPassword +:+
  (if passwordSet ui then ":" +:+ escape (password ui) encodeUserPassword else "").

(** [u.String()] *)
Definition URL_String (u : URL) : string :=
  let scheme := if String.eqb (Scheme u) "" then "" else Scheme u +:+ ":" in
  let body :=
    if negb (String.eqb (Opaque u) "") then scheme +:+ Opaque u
    else
      let hasUser := match User u with Some _ => true | None => false end in
      let authority :=
        if (negb (String.eqb (Scheme u) "") || negb (String.eqb (Host u) "") || hasUser)
           && negb (OmitHost u && String.eqb (Host u) "" && negb hasUser)
        then
          (if negb (String.eqb (Host u) "") || negb (String.eqb (Path u) "") || hasUser
           then "//" else "") +:+
          (match User u with Some ui => Userinfo_String ui +:+ "@" | None => "" end) +:+
          (if String.eqb (Host u) "" then "" else escape (Host u) encodeHost)
        else "" in
      let path := EscapedPath u in
      let slash :=
        if negb (String.eqb path "") && negb (strings_HasPrefix path "/")
           && negb (String.eqb (Host u) "")
        then "/" else "" in
      let buf := scheme +:+ authority +:+ slash in
      let dotSlash :=
        if String.eqb buf "" && strings_Contains (strings_Cut "/" path).1.1 ":"
        then "./" else "" in
      buf +:+ dotSlash +:+ path in
  body +:+
  (if ForceQuery u || negb (String.eqb (RawQuery u) "") then "?" +:+ RawQuery u else "") +:+
  (if String.eqb (Fragment u) "" then "" else "#" +:+ EscapedFragment u).

(** ** [net/http]: headers, responses and client handles *)

(** [http.Header] is [map[string][]string], its keys in canonical form. *)
Abbreviation http_Header := (gmap string (list string)).

(** Bytes allowed in a header field name (the [token] of RFC 7230). *)
Definition validHeaderFieldByte (c : ascii) : bool :=
  isAlnum c || oneOf "!#$%&'*+-.^_`|~" c.

(** The case fix of [canonicalMIMEHeaderKey]: upper case at the start and
    after each dash, lower case elsewhere. *)
Fixpoint canonicalCase (upper : bool) (s : string) : string :=
  match s with
  | "" => ""
  | String c s' =>
      let c' := if upper then toUpperByte c else toLowerByte c in
      String c' (canonicalCase (Ascii.eqb c' "-") s')
  end.

(** [textproto.CanonicalMIMEHeaderKey(s)]: a name with a byte that no field
    name can hold is returned as it is. *)
Definition CanonicalMIMEHeaderKey (s : string) : string :=
  if allBytes validHeaderFieldByte s then canonicalCase true s else s.

(** [h.Get(key)]: the first value stored under the canonical form of
    [key], or the empty string. *)
Definition Header_Get (h : http_Header) (key : string) : string :=
  match h !!! CanonicalMIMEHeaderKey key with
  | [] => ""
  | v :: _ => v
  end.

(** [h.Set(key, value)], as a test server uses it. *)
Definition Header_Set (h : http_Header) (key value : string) : http_Header :=
  <[CanonicalMIMEHeaderKey key := [value]]> h.

(** A response body, by what [io.ReadAll] gets out of it: the bytes read
    and the error that ended the reading, if one did. *)
Record ReadCloser : Type := {
  content : string;
  readError : option error
}.

Definition io_ReadAll (r : ReadCloser) : string * option error :=
  (content r, readError r).

Record Response : Type := {
  StatusCode : Z;
  Header : http_Header;
  Body : ReadCloser
}.

Definition StatusOK : Z := 200.
Definition StatusUnauthorized : Z := 401.
Definition StatusUnprocessableEntity : Z := 422.
Definition StatusTooManyRequests : Z := 429.

(** An [http.Client] value: which [RoundTripper] it sends through ([None]
    is Go's [nil], the default transport; an injected one is named by a
    number) and its time limit in nanoseconds ([0]: none). *)
Record http_Client : Type := {
  Transport : option nat;
  Timeout : Z
}.

#[global] Instance http_Client_eq_dec : EqDecision http_Client.
Proof. solve_decision. Defined.

(** [&http.Client{}] *)
Definition zeroClient : http_Client := {| Transport := None; Timeout := 0 |}.

(** [http.DefaultClient], declared as [&Client{}]. *)
Definition DefaultClient : http_Client := zeroClient.

(** ** The world outside the program

    [exchange w h url] is what a GET of [url] through the handle [h] comes
    back with in the world [w]: a response, or the error of a request that
    got none.  [sent w] lists the requests issued so far, each with the
    handle it went through. *)
Record World : Type := {
  exchange : http_Client -> string -> result Response;
  sent : list (http_Client * string)
}.

(** The end of a Go call: it returns, or the goroutine panics. *)
Inductive outcome (A : Type) : Type :=
  | Return (a : A)
  | Panic (msg : string).

Arguments Return {A} a.
Arguments Panic {A} msg.

(** A Go function with effects on the world. *)
Definition M (A : Type) : Type := World -> outcome A * World.

#[global] Instance M_ret : MRet M := fun A a w => (Return a, w).

#[global] Instance M_bind : MBind M :=
  fun A B k m w =>
    match m w with
    | (Return a, w') => k a w'
    | (Panic msg, w') => (Panic msg, w')
    end.

Definition panic {A : Type} (msg : string) : M A := fun w => (Panic msg, w).

(** Using a [nil] pointer. *)
Definition nilDereference : string :=
  "runtime error: invalid memory address or nil pointer dereference".

(** [c.Get(url)]: one request through the handle [c]. *)
Definition Client_Get (c : http_Client) (url : string) : M (result Response) :=
  fun w => (Return (exchange w c url),
            {| exchange := exchange w; sent := sent w ++ [(c, url)] |}).

(** [http.Get(url)] is [DefaultClient.Get(url)]. *)
Definition http_Get (url : string) : M (result Response) :=
  Client_Get DefaultClient url.

(** ** [encoding/json]: reading a JSON text *)

(** A JSON value.  A number keeps its literal, as Go's decoder does until
    it knows the type it is stored into; a string holds its bytes after
    unquoting; an object keeps its members in order, repeated keys
    included. *)
#[warnings="-register-all"]
Inductive Value : Type :=
  | JNull
  | JBool (b : bool)
  | JNumber (literal : string)
  | JString (s : string)
  | JArray (elements : list Value)
  | JObject (members : list (string * Value)).

Inductive token : Type :=
  | TLBrace | TRBrace | TLBracket | TRBracket | TColon | TComma
  | TStr (s : string)
  | TNum (literal : string)
  | TTrue | TFalse | TNull.

Definition backslash : ascii := ascii_of_N 92.

Definition isSpace (c : ascii) : bool :=
  Ascii.eqb c " " || Ascii.eqb c (ascii_of_N 9)
  || Ascii.eqb c (ascii_of_N 13) || Ascii.eqb c (ascii_of_N 10).

Definition revString (acc : list ascii) : string :=
  string_of_list_ascii (rev acc).

Definition bytesOf (l : list N) : string :=
  string_of_list_ascii (map ascii_of_N l).

(** [utf8.EncodeRune]: a surrogate or a value past U+10FFFF is written as
    U+FFFD. *)
Definition encodeRune (r : N) : string :=
  (if r <? 128 then bytesOf [r]
   else if r <? 2048 then bytesOf [192 + r / 64; 128 + r mod 64]
   else if (55296 <=? r) && (r <=? 57343) || (1114111 <? r) then bytesOf [239; 191; 189]
   else if r <? 65536 then bytesOf [224 + r / 4096; 128 + (r / 64) mod 64; 128 + r mod 64]
   else bytesOf [240 + r / 262144; 128 + (r / 4096) mod 64;
                 128 + (r / 64) mod 64; 128 + r mod 64])%N.

Definition replacementChar : string := bytesOf [239%N; 191%N; 189%N].

Definition hex4 (a b c d : ascii) : N :=
  (((unhex a * 16 + unhex b) * 16 + unhex c) * 16 + unhex d)%N.

Definition isSurrogate (r : N) : bool := ((55296 <=? r) && (r <? 57344))%N.

(** [utf16.DecodeRune(r1, r2)], when the two halves form a pair. *)
Definition decodeSurrogates (r1 r2 : N) : option N :=
  (if (55296 <=? r1) && (r1 <? 56320) && (56320 <=? r2) && (r2 <? 57344)
   then Some ((r1 - 55296) * 1024 + (r2 - 56320) + 65536)
   else None)%N.

Definition isCont (c : ascii) : bool := between (ascii_of_N 128) (ascii_of_N 191) c.

(** The byte an escape letter stands for. *)
Definition escapeByte (c : ascii) : ascii :=
  if Ascii.eqb c "b" then ascii_of_N 8
  else if Ascii.eqb c "f" then ascii_of_N 12
  else if Ascii.eqb c "n" then ascii_of_N 10
  else if Ascii.eqb c "r" then ascii_of_N 13
  else if Ascii.eqb c "t" then ascii_of_N 9
  else c.

(** [unquote]: the bytes a string literal denotes, from the text between
    its quotes.  Escapes are replaced, and bytes that are not valid UTF-8
    become U+FFFD. *)
Fixpoint unquote (s : string) : string :=
  match s with
  | "" => ""
  | String c rest =>
      if Ascii.eqb c backslash then
        match rest with
        | String e rest1 =>
            if Ascii.eqb e "u" then
              match rest1 with
              | String h1 (String h2 (String h3 (String h4 rest2))) =>
                  let rr := hex4 h1 h2 h3 h4 in
                  if isSurrogate rr then
                    match rest2 with
                    | String b2 (String u2 (String k1 (String k2 (String k3 (String k4 rest3))))) =>
                        match (if Ascii.eqb b2 backslash && Ascii.eqb u2 "u"
                                  && ishex k1 && ishex k2 && ishex k3 && ishex k4
                               then decodeSurrogates rr (hex4 k1 k2 k3 k4) else None) with
                        | Some r => encodeRune r +:+ unquote rest3
                        | None => replacementChar +:+ unquote rest2
                        end
                    | _ => replacementChar +:+ unquote rest2
                    end
                  else encodeRune rr +:+ unquote rest2
              | _ => ""
              end
            else String (escapeByte e) (unquote rest1)
        | "" => ""
        end
      else if (N_of_ascii c <? 128)%N then String c (unquote rest)
      else
        let n := N_of_ascii c in
        match rest with
        | String c1 rest1 =>
            if ((194 <=? n) && (n <=? 223))%N && isCont c1
            then String c (String c1 (unquote rest1))
            else
              match rest1 with
              | String c2 rest2 =>
                  let second3 :=
                    (if n =? 224 then between (ascii_of_N 160) (ascii_of_N 191) c1
                     else if n =? 237 then between (ascii_of_N 128) (ascii_of_N 159) c1
                     else ((225 <=? n) && (n <=? 239)) && isCont c1)%N in
                  if second3 && isCont c2
                  then String c (String c1 (String c2 (unquote rest2)))
                  else
                    match rest2 with
                    | String c3 rest3 =>
                        let second4 :=
                          (if n =? 240 then between (ascii_of_N 144) (ascii_of_N 191) c1
                           else if n =? 244 then between (ascii_of_N 128) (ascii_of_N 143) c1
                           else ((241 <=? n) && (n <=? 243)) && isCont c1)%N in
                        if second4 && isCont c2 && isCont c3
                        then String c (String c1 (String c2 (String c3 (unquote rest3))))
                        else replacementChar +:+ unquote rest
                    | "" => replacementChar +:+ unquote rest
                    end
              | "" => replacementChar +:+ unquote rest
              end
        | "" => replacementChar
        end
  end.

(** The states of the scanner inside a number. *)
Inductive numState : Type :=
  | nsNeg | ns0 | ns1 | nsDot | nsDot0 | nsE | nsESign | nsE0.

(** The state after byte [c], when [c] carries the number on. *)
Definition numStep (ns : numState) (c : ascii) : option numState :=
  let exponent := Ascii.eqb c "e" || Ascii.eqb c "E" in
  match ns with
  | nsNeg => if Ascii.eqb c "0" then Some ns0
             else if between "1" "9" c then Some ns1 else None
  | ns1 => if isDigit c then Some ns1
           else if Ascii.eqb c "." then Some nsDot
           else if exponent then Some nsE else None
  | ns0 => if Ascii.eqb c "." then Some nsDot
           else if exponent then Some nsE else None
  | nsDot => if isDigit c then Some nsDot0 else None
  | nsDot0 => if isDigit c then Some nsDot0
              else if exponent then Some nsE else None
  | nsE => if Ascii.eqb c "+" || Ascii.eqb c "-" then Some nsESign
           else if isDigit c then Some nsE0 else None
  | nsESign => if isDigit c then Some nsE0 else None
  | nsE0 => if isDigit c then Some nsE0 else None
  end.

(** The number may end here. *)
Definition numFinal (ns : numState) : bool :=
  match ns with
  | ns0 | ns1 | nsDot0 | nsE0 => true
  | _ => false
  end.

Inductive lexState : Type :=
  | lexValue
  | lexString (acc : list ascii)
  | lexEsc (acc : list ascii)
  | lexU (acc : list ascii) (digits : nat)
  | lexNumber (ns : numState) (acc : list ascii)
  | lexLiteral (expect : string) (tok : token).

(** The tokens of a JSON text, or [None] where the scanner rejects a byte
    or the text ends inside a token. *)
Fixpoint lex (st : lexState) (s : string) : option (list token) :=
  match s with
  | "" =>
      match st with
      | lexValue => Some []
      | lexNumber ns acc => if numFinal ns then Some [TNum (revString acc)] else None
      | _ => None
      end
  | String c s' =>
      let start (_ : unit) : option (list token) :=
        if isSpace c then lex lexValue s'
        else if Ascii.eqb c "{" then cons TLBrace <$> lex lexValue s'
        else if Ascii.eqb c "}" then cons TRBrace <$> lex lexValue s'
        else if Ascii.eqb c "[" then cons TLBracket <$> lex lexValue s'
        else if Ascii.eqb c "]" then cons TRBracket <$> lex lexValue s'
        else if Ascii.eqb c ":" then cons TColon <$> lex lexValue s'
        else if Ascii.eqb c "," then cons TComma <$> lex lexValue s'
        else if Ascii.eqb c dquote then lex (lexString []) s'
        else if Ascii.eqb c "-" then lex (lexNumber nsNeg [c]) s'
        else if Ascii.eqb c "0" then lex (lexNumber ns0 [c]) s'
        else if between "1" "9" c then lex (lexNumber ns1 [c]) s'
        else if Ascii.eqb c "t" then lex (lexLiteral "rue" TTrue) s'
        else if Ascii.eqb c "f" then lex (lexLiteral "alse" TFalse) s'
        else if Ascii.eqb c "n" then lex (lexLiteral "ull" TNull) s'
        else None in
      match st with
      | lexValue => start ()
      | lexString acc =>
          if Ascii.eqb c dquote then cons (TStr (unquote (revString acc))) <$> lex lexValue s'
          else if Ascii.eqb c backslash then lex (lexEsc (c :: acc)) s'
          else if (N_of_ascii c <? 32)%N then None
          else lex (lexString (c :: acc)) s'
      | lexEsc acc =>
          if oneOf "bfnrt/" c || Ascii.eqb c backslash || Ascii.eqb c dquote
          then lex (lexString (c :: acc)) s'
          else if Ascii.eqb c "u" then lex (lexU (c :: acc) 4) s'
          else None
      | lexU acc digits =>
          if ishex c then
            match digits with
            | 1%nat => lex (lexString (c :: acc)) s'
            | S digits' => lex (lexU (c :: acc) digits') s'
            | O => None
            end
          else None
      | lexNumber ns acc =>
          match numStep ns c with
          | Some ns' => lex (lexNumber ns' (c :: acc)) s'
          | None => if numFinal ns then cons (TNum (revString acc)) <$> start () else None
          end
      | lexLiteral expect tok =>
          match expect with
          | String e "" => if Ascii.eqb c e then cons tok <$> lex lexValue s' else None
          | String e expect' => if Ascii.eqb c e then lex (lexLiteral expect' tok) s' else None
          | "" => None
          end
      end
  end.

(** A container the parser is inside of: an array with the elements read
    so far, or an object with its members so far and the key whose value
    comes next (both lists newest first). *)
Inductive frame : Type :=
  | inArray (elements : list Value)
  | inObject (members : list (string * Value)) (key : string).

(** What the parser may meet next. *)
Inductive expect : Type :=
  | beginValue
  | beginValueOrEmpty
  | beginStringOrEmpty
  | beginString
  | endKey
  | endValue
  | endTop (v : Value).

Definition maxNestingDepth : Z := 10000.

(** A finished value goes to the container around it, or is the result. *)
Definition deliver (v : Value) (stack : list frame) : list frame * expect :=
  match stack with
  | [] => ([], endTop v)
  | inArray elements :: stack' => (inArray (v :: elements) :: stack', endValue)
  | inObject members key :: stack' => (inObject ((key, v) :: members) key :: stack', endValue)
  end.

Definition open (f : frame) (e : expect) (stack : list frame)
  : option (list frame * expect) :=
  if Z.of_nat (length (f :: stack)) <=? maxNestingDepth
  then Some (f :: stack, e) else None.

Definition parseStep (st : list frame * expect) (t : token)
  : option (list frame * expect) :=
  let '(stack, e) := st in
  let value : option (list frame * expect) :=
    match t with
    | TLBrace => open (inObject [] "") beginStringOrEmpty stack
    | TLBracket => open (inArray []) beginValueOrEmpty stack
    | TStr s => Some (deliver (JString s) stack)
    | TNum literal => Some (deliver (JNumber literal) stack)
    | TTrue => Some (deliver (JBool true) stack)
    | TFalse => Some (deliver (JBool false) stack)
    | TNull => Some (deliver JNull stack)
    | _ => None
    end in
  match e, t, stack with
  | beginValue, _, _ => value
  | beginValueOrEmpty, TRBracket, inArray elements :: stack' =>
      Some (deliver (JArray (rev elements)) stack')
  | beginValueOrEmpty, _, _ => value
  | (beginStringOrEmpty | endValue), TRBrace, inObject members _ :: stack' =>
      Some (deliver (JObject (rev members)) stack')
  | (beginStringOrEmpty | beginString), TStr key, inObject members _ :: stack' =>
      Some (inObject members key :: stack', endKey)
  | endKey, TColon, _ => Some (stack, beginValue)
  | endValue, TComma, inArray _ :: _ => Some (stack, beginValue)
  | endValue, TComma, inObject _ _ :: _ => Some (stack, beginString)
  | endValue, TRBracket, inArray elements :: stack' =>
      Some (deliver (JArray (rev elements)) stack')
  | _, _, _ => None
  end.

Fixpoint parseTokens (st : list frame * expect) (ts : list token) : option Value :=
  match ts with
  | [] => match st with
          | (_, endTop v) => Some v
          | _ => None
          end
  | t :: ts' => st' ← parseStep st t; parseTokens st' ts'
  end.

(** The value a JSON text denotes; [None] is a syntax error, which
    [json.Unmarshal] reports before it stores anything. *)
Definition json_parse (data : string) : option Value :=
  ts ← lex lexValue data; parseTokens ([], beginValue) ts.

(** ** [encoding/json]: storing a value into Go data *)

(** How [UnmarshalTypeError] names a value that does not fit. *)
Definition describe (v : Value) : string :=
  match v with
  | JNull => "null"
  | JBool _ => "bool"
  | JNumber literal => "number " +:+ literal
  | JString _ => "string"
  | JArray _ => "array"
  | JObject _ => "object"
  end.

Definition describeKind (v : Value) : string :=
  match v with
  | JNumber _ => "number"
  | _ => describe v
  end.

Fixpoint digitsValue (acc : Z) (s : string) : option Z :=
  match s with
  | "" => Some acc
  | String c s' =>
      if isDigit c then digitsValue (acc * 10 + (Z.of_N (N_of_ascii c) - 48)) s'
      else None
  end.

Definition minInt : Z := - 2 ^ 63.
Definition maxInt : Z := 2 ^ 63 - 1.

(** [strconv.ParseInt(literal, 10, 64)] on a JSON number: an integer
    literal within the range of [int]; fractions and exponents are
    refused. *)
Definition parseInt (literal : string) : option Z :=
  n ← match literal with
      | String "-" digits => Z.opp <$> digitsValue 0 digits
      | _ => digitsValue 0 literal
      end;
  if (minInt <=? n) && (n <=? maxInt) then Some n else None.

(** The first error is the one [Unmarshal] returns. *)
Definition saveError (saved : option error) (err : error) : option error :=
  Some (default err saved).

(** Storing [v] into a field of type [string]: [null] leaves it alone. *)
Definition storeString (field : string) (v : Value) (old : string) (saved : option error)
  : string * option error :=
  match v with
  | JString s => (s, saved)
  | JNull => (old, saved)
  | _ => (old, saveError saved (json_UnmarshalTypeError (describeKind v) field))
  end.

(** Storing [v] into a field of type [int]. *)
Definition storeInt (field : string) (v : Value) (old : Z) (saved : option error)
  : Z * option error :=
  match v with
  | JNumber literal =>
      match parseInt literal with
      | Some n => (n, saved)
      | None => (old, saveError saved (json_UnmarshalTypeError (describe v) field))
      end
  | JNull => (old, saved)
  | _ => (old, saveError saved (json_UnmarshalTypeError (describe v) field))
  end.

(** An object key names the field whose tag it equals, the case of ASCII
    letters aside.  [tag] is one of the lower-case tags of this package;
    none of them has a letter that folds to a rune outside ASCII. *)
Definition foldEq (key tag : string) : bool :=
  String.eqb (mapBytes toLowerByte key) tag.

(** A test body written with ['] where the JSON text has its double
    quotes. *)
Definition jsonText (s : string) : string :=
  mapBytes (fun c => if Ascii.eqb c "'" then dquote else c) s.

(** ** Package [agify]: types *)

(** Prediction is the age prediction for a name.  The tags of its fields
    are [name], [age], [count] and [country_id]. *)
Record Prediction : Type := {
  Name : string;
  Age : Z;
  Count : Z;
  Country : string
}.

(** RateLimit is the rate limiting information from the API. *)
Record RateLimit : Type := {
  Limit : string;
  Remaining : string;
  Reset : string
}.

(** errorResponse is the error response from the agify API; its field has
    the tag [error]. *)
Record errorResponse : Type := {
  Error : string
}.

(** Client is the client to call agify.io.  [http] is a pointer. *)
Record Client : Type := {
  apiKey : string;
  baseUrl : string;
  http : option http_Client
}.

(** clientDefaults holds the default values for the client. *)
Module defaults.
Record clientDefaults : Type := {
  apiKey : string;
  baseUrl : string;
  http : option http_Client
}.
End defaults.
Export defaults (clientDefaults).

(** ClientOption is a function that can be used to configure the client:
    it updates the [clientDefaults] it is handed. *)
Definition ClientOption : Type := clientDefaults -> clientDefaults.

(** The zero values of [var prediction Prediction] and
    [var resp errorResponse]. *)
Definition zeroPrediction : Prediction :=
  {| Name := ""; Age := 0; Count := 0; Country := "" |}.

Definition zeroErrorResponse : errorResponse := {| Error := "" |}.

(** ** [json.Unmarshal] at the three types the package decodes *)

(** One member of an object stored into a [Prediction]; a key that names
    no field is skipped. *)
Definition storePredictionField (st : Prediction * option error) (member : string * Value)
  : Prediction * option error :=
  let '(p, saved) := st in
  let '(key, v) := member in
  if foldEq key "name" then
    let '(x, saved) := storeString "name" v (Name p) saved in
    ({| Name := x; Age := Age p; Count := Count p; Country := Country p |}, saved)
  else if foldEq key "age" then
    let '(x, saved) := storeInt "age" v (Age p) saved in
    ({| Name := Name p; Age := x; Count := Count p; Country := Country p |}, saved)
  else if foldEq key "count" then
    let '(x, saved) := storeInt "count" v (Count p) saved in
    ({| Name := Name p; Age := Age p; Count := x; Country := Country p |}, saved)
  else if foldEq key "country_id" then
    let '(x, saved) := storeString "country_id" v (Country p) saved in
    ({| Name := Name p; Age := Age p; Count := Count p; Country := x |}, saved)
  else (p, saved).

(** Storing [v] into a [Prediction]: an object fills the fields its keys
    name, [null] changes nothing, any other value is a type error. *)
Definition storePrediction (v : Value) (p : Prediction) (saved : option error)
  : Prediction * option error :=
  match v with
  | JObject members => foldl storePredictionField (p, saved) members
  | JNull => (p, saved)
  | _ => (p, saveError saved (json_UnmarshalTypeError (describeKind v) ""))
  end.

(** Storing [v] into a [[]Prediction]: one new element per element of an
    array, each filled from the zero value. *)
Definition storePredictions (v : Value) (ps : list Prediction) (saved : option error)
  : list Prediction * option error :=
  match v with
  | JArray elements =>
      foldl (fun st e =>
               let '(p, saved) := storePrediction e zeroPrediction st.2 in
               (st.1 ++ [p], saved))
            ([], saved) elements
  | JNull => ([], saved)
  | _ => (ps, saveError saved (json_UnmarshalTypeError (describeKind v) ""))
  end.

Definition storeErrorField (st : errorResponse * option error) (member : string * Value)
  : errorResponse * option error :=
  let '(r, saved) := st in
  let '(key, v) := member in
  if foldEq key "error" then
    let '(x, saved) := storeString "error" v (Error r) saved in
    ({| Error := x |}, saved)
  else (r, saved).

Definition storeErrorResponse (v : Value) (r : errorResponse) (saved : option error)
  : errorResponse * option error :=
  match v with
  | JObject members => foldl storeErrorField (r, saved) members
  | JNull => (r, saved)
  | _ => (r, saveError saved (json_UnmarshalTypeError (describeKind v) ""))
  end.

(** [json.Unmarshal(data, &target)]: the target afterwards and the error
    returned.  A text that is not JSON leaves the target as it was. *)
Definition json_Unmarshal {T : Type}
    (store : Value -> T -> option error -> T * option error)
    (data : string) (target : T) : T * option error :=
  match json_parse data with
  | None => (target, Some json_SyntaxError)
  | Some v => store v target None
  end.

(** ** Package [agify]: the client *)

(** WithUrl overrides the default base URL. *)
Definition WithUrl (baseUrl : string) : ClientOption :=
  fun client =>
    {| defaults.apiKey := defaults.apiKey client;
       defaults.baseUrl := baseUrl;
       defaults.http := defaults.http client |}.

(** WithApiKey overrides the default API key. *)
Definition WithApiKey (apiKey : string) : ClientOption :=
  fun client =>
    {| defaults.apiKey := apiKey;
       defaults.baseUrl := defaults.baseUrl client;
       defaults.http := defaults.http client |}.

(** WithClient overrides the default http client. *)
Definition WithClient (httpClient : option http_Client) : ClientOption :=
  fun client =>
    {| defaults.apiKey := defaults.apiKey client;
       defaults.baseUrl := defaults.baseUrl client;
       defaults.http := httpClient |}.

(** NewClient creates a client to call agify.io.  By default, the client
    will use the public API URL without an API key; the options are
    applied to the defaults in the order given. *)
Definition NewClient (opts : list ClientOption) : Client :=
  let defaults :=
    foldl (fun defaults opt => opt defaults)
          {| defaults.apiKey := "";
             defaults.baseUrl := "https://api.agify.io";
             defaults.http := Some zeroClient |}
          opts in
  {| apiKey := defaults.apiKey defaults;
     baseUrl := defaults.baseUrl defaults;
     http := defaults.http defaults |}.

(** A Go call returning a pointer and an error: the pointer is [nil] when
    the error is not. *)
Definition pointerAndError {A : Type} (r : result A) : option A * option error :=
  match r with
  | inl err => (None, Some err)
  | inr a => (Some a, None)
  end.

(** Following a pointer: a [nil] one panics. *)
Definition deref {A : Type} (p : option A) : M A :=
  match p with
  | Some a => mret a
  | None => panic nilDereference
  end.

(** What the methods below return: a pointer to the result, a pointer to
    the rate limit, and an error. *)
Definition answer (T : Type) : Type := (option T * option RateLimit * option error)%type.

(** get makes the API request and returns the response body.  The body is
    read whatever the status; [err] then holds what the reading ended
    with, until the decoding of an error response overwrites it.  The
    deferred [resp.Body.Close()] changes nothing that is returned. *)
Definition get (client : Client) (url : string) : M (answer string) :=
  r ← http_Get url;
  match r with
  | inl err => mret (None, None, Some err)
  | inr resp =>
      let rateLimit :=
        {| Limit := Header_Get (Header resp) "X-Rate-Limit-Limit";
           Remaining := Header_Get (Header resp) "X-Rate-Limit-Remaining";
           Reset := Header_Get (Header resp) "X-Rate-Reset" |} in
      let '(body, err) := io_ReadAll (Body resp) in
      if negb (StatusCode resp =? StatusOK) then
        let '(resp, err) := json_Unmarshal storeErrorResponse body zeroErrorResponse in
        match err with
        | Some err => mret (None, Some rateLimit, Some err)
        | None => mret (None, Some rateLimit, Some (errorString (Error resp)))
        end
      else
        match err with
        | Some err => mret (None, Some rateLimit, Some err)
        | None => mret (Some body, Some rateLimit, None)
        end
  end.

(** The bytes of a [[]byte]; a [nil] slice has none. *)
Definition bytes (body : option string) : string := default "" body.

(** PredictWithCountry returns the age probability for a name in a
    country.  The error of [url.Parse] is dropped, so after a failed parse
    [url] is [nil] and [url.Query()] panics. *)
Definition PredictWithCountry (client : Client) (name country : string)
  : M (answer Prediction) :=
  let '(url, _) := pointerAndError (url_Parse (baseUrl client)) in
  url ← deref url;
  let values := URL_Query url in
  let values := Values_Add values "name" name in
  let values :=
    if negb (String.eqb country "") then Values_Add values "country_id" country
    else values in
  let values :=
    if negb (String.eqb (apiKey client) "") then Values_Add values "apikey" (apiKey client)
    else values in
  let url := setRawQuery url (Values_Encode values) in
  '(body, rateLimit, err) ← get client (URL_String url);
  match err with
  | Some err => mret (None, rateLimit, Some err)
  | None =>
      let '(prediction, err) := json_Unmarshal storePrediction (bytes body) zeroPrediction in
      match err with
      | Some err => mret (None, rateLimit, Some err)
      | None => mret (Some prediction, rateLimit, None)
      end
  end.

(** Predict returns the age probability for a name. *)
Definition Predict (client : Client) (name : string) : M (answer Prediction) :=
  PredictWithCountry client name "".

(** BatchPredictWithCountry returns the age probability for a list of
    names in a country. *)
Definition BatchPredictWithCountry (client : Client) (names : list string) (country : string)
  : M (answer (list Prediction)) :=
  let '(url, _) := pointerAndError (url_Parse (baseUrl client)) in
  url ← deref url;
  let values := URL_Query url in
  let values := Values_Add values "country_id" country in
  let values := foldl (fun values name => Values_Add values "name[]" name) values names in
  let values :=
    if negb (String.eqb (apiKey client) "") then Values_Add values "apikey" (apiKey client)
    else values in
  let url := setRawQuery url (Values_Encode values) in
  '(body, rateLimit, err) ← get client (URL_String url);
  match err with
  | Some err => mret (None, rateLimit, Some err)
  | None =>
      let '(predictions, err) := json_Unmarshal storePredictions (bytes body) [] in
      match err with
      | Some err => mret (None, rateLimit, Some err)
      | None => mret (Some predictions, rateLimit, None)
      end
  end.

(** BatchPredict returns the age probability for a list of names. *)
Definition BatchPredict (client : Client) (names : list string)
  : M (answer (list Prediction)) :=
  BatchPredictWithCountry client names "".

(** ** The first version of the client ([client.go])

    There the API key is a pointer to a string and the constructor takes
    the key and the base URL; the methods are otherwise the same. *)
Module V0.

Record Client : Type := {
  apiKey : option string;
  baseUrl : string;
  http : option http_Client
}.

(** NewClient creates a new client for agify.io *)
Definition NewClient (apiKey : option string) (baseUrl : string) : Client :=
  {| apiKey := apiKey; baseUrl := baseUrl; http := Some zeroClient |}.

(** get makes the API request and returns the response body *)
Definition get (client : Client) (url : string) : M (answer string) :=
  r ← http_Get url;
  match r with
  | inl err => mret (None, None, Some err)
  | inr resp =>
      let rateLimit :=
        {| Limit := Header_Get (Header resp) "X-Rate-Limit-Limit";
           Remaining := Header_Get (Header resp) "X-Rate-Limit-Remaining";
           Reset := Header_Get (Header resp) "X-Rate-Reset" |} in
      let '(body, err) := io_ReadAll (Body resp) in
      if negb (StatusCode resp =? StatusOK) then
        let '(resp, err) := json_Unmarshal storeErrorResponse body zeroErrorResponse in
        match err with
        | Some err => mret (None, Some rateLimit, Some err)
        | None => mret (None, Some rateLimit, Some (errorString (Error resp)))
        end
      else
        match err with
        | Some err => mret (None, Some rateLimit, Some err)
        | None => mret (Some body, Some rateLimit, None)
        end
  end.

(** PredictWithCountry returns the age probabilty for a name in a country *)
Definition PredictWithCountry (client : Client) (name country : string)
  : M (answer Prediction) :=
  let '(url, _) := pointerAndError (url_Parse (baseUrl client)) in
  url ← deref url;
  let values := URL_Query url in
  let values := Values_Add values "name" name in
  let values :=
    if negb (String.eqb country "") then Values_Add values "country_id" country
    else values in
  let values :=
    match apiKey client with
    | Some key => Values_Add values "apikey" key
    | None => values
    end in
  let url := setRawQuery url (Values_Encode values) in
  '(body, rateLimit, err) ← get client (URL_String url);
  match err with
  | Some err => mret (None, rateLimit, Some err)
  | None =>
      let '(prediction, err) := json_Unmarshal storePrediction (bytes body) zeroPrediction in
      match err with
      | Some err => mret (None, rateLimit, Some err)
      | None => mret (Some prediction, rateLimit, None)
      end
  end.

(** Predict returns the age probabilty for a name *)
Definition Predict (client : Client) (name : string) : M (answer Prediction) :=
  PredictWithCountry client name "".

(** BatchPredict returns the age probabilty for a list of names in a country *)
Definition BatchPredictWithCountry (client : Client) (names : list string) (country : string)
  : M (answer (list Prediction)) :=
  let '(url, _) := pointerAndError (url_Parse (baseUrl client)) in
  url ← deref url;
  let values := URL_Query url in
  let values := Values_Add values "country_id" country in
  let values := foldl (fun values name => Values_Add values "name[]" name) values names in
  let values :=
    match apiKey client with
    | Some key => Values_Add values "apikey" key
    | None => values
    end in
  let url := setRawQuery url (Values_Encode values) in
  '(body, rateLimit, err) ← get client (URL_String url);
  match err with
  | Some err => mret (None, rateLimit, Some err)
  | None =>
      let '(predictions, err) := json_Unmarshal storePredictions (bytes body) [] in
      match err with
      | Some err => mret (None, rateLimit, Some err)
      | None => mret (Some predictions, rateLimit, None)
      end
  end.

(** BatchPredict returns the age probabilty for a list of names *)
Definition BatchPredict (client : Client) (names : list string)
  : M (answer (list Prediction)) :=
  BatchPredictWithCountry client names "".

End V0.

(** The client of the current version that a first-version client
    corresponds to, when its key is not a pointer to the empty string. *)
Definition ofV0 (client : V0.Client) : Client :=
  {| apiKey := default "" (V0.apiKey client);
     baseUrl := V0.baseUrl client;
     http := V0.http client |}.

(** ** Vocabulary of the statements *)

(** The URL that [PredictWithCountry] prints and sends, from the parsed
    base URL [url]: its query with [name], then [country_id] when the
    country is not empty, then [apikey] when the client has a key. *)
Definition predictURL (client : Client) (url : URL) (name country : string) : URL :=
  let values := URL_Query url in
  let values := Values_Add values "name" name in
  let values :=
    if negb (String.eqb country "") then Values_Add values "country_id" country
    else values in
  let values :=
    if negb (String.eqb (apiKey client) "") then Values_Add values "apikey" (apiKey client)
    else values in
  setRawQuery url (Values_Encode values).

(** The URL that [BatchPredictWithCountry] prints and sends: [country_id]
    always, then one [name[]] per name, then [apikey] when the client has
    a key. *)
Definition batchPredictURL (client : Client) (url : URL) (names : list string)
    (country : string) : URL :=
  let values := URL_Query url in
  let values := Values_Add values "country_id" country in
  let values := foldl (fun values name => Values_Add values "name[]" name) values names in
  let values :=
    if negb (String.eqb (apiKey client) "") then Values_Add values "apikey" (apiKey client)
    else values in
  setRawQuery url (Values_Encode values).

(** The rate limit that the headers of a response carry. *)
Definition headerRateLimit (resp : Response) : RateLimit :=
  {| Limit := Header_Get (Header resp) "X-Rate-Limit-Limit";
     Remaining := Header_Get (Header resp) "X-Rate-Limit-Remaining";
     Reset := Header_Get (Header resp) "X-Rate-Reset" |}.

(** The error that the body of an error response stands for: the failure
    to decode it, or else the message of the payload. *)
Definition payloadError (body : string) : error :=
  match json_Unmarshal storeErrorResponse body zeroErrorResponse with
  | (_, Some err) => err
  | (payload, None) => errorString (Error payload)
  end.

(** The answer that section 4.4 of the specification gives for a response:
    with status 200 the body, or the error that ended its reading; with
    any other status the error its body stands for; the rate limit of the
    headers in every case. *)
Definition classify (resp : Response) : answer string :=
  if StatusCode resp =? StatusOK then
    match readError (Body resp) with
    | Some err => (None, Some (headerRateLimit resp), Some err)
    | None => (Some (content (Body resp)), Some (headerRateLimit resp), None)
    end
  else (None, Some (headerRateLimit resp), Some (payloadError (content (Body resp)))).

(** What a method makes of the answer of [get]: an error is passed on,
    a body is decoded, and a body that does not decode is an error. *)
Definition decoded {T : Type} (store : Value -> T -> option error -> T * option error)
    (zero : T) (a : answer string) : answer T :=
  match a with
  | (_, rateLimit, Some err) => (None, rateLimit, Some err)
  | (body, rateLimit, None) =>
      match json_Unmarshal store (bytes body) zero with
      | (_, Some err) => (None, rateLimit, Some err)
      | (x, None) => (Some x, rateLimit, None)
      end
  end.

(** Bytes that an escaped query component is made of. *)
Definition escapedByte (c : ascii) : bool := isAlnum c || oneOf "-_.~%+" c.

(** The key and value pairs of [v] that [Encode] writes, key by key, and
    the text of one pair. *)
Definition pairsOf (v : Values) (keys : list string) : list (string * string) :=
  flat_map (fun k => map (fun x => (k, x)) (v !!! k)) keys.

Definition encodePair (kv : string * string) : string :=
  QueryEscape kv.1 +:+ "=" +:+ QueryEscape kv.2.

(** The world after one more request through [h]. *)
Definition afterRequest (w : World) (h : http_Client) (url : string) : World :=
  {| exchange := exchange w; sent := sent w ++ [(h, url)] |}.

Definition isNull (v : Value) : bool :=
  match v with
  | JNull => true
  | _ => false
  end.

(** The member of an object that a field is read from: the last one whose
    key names the tag and whose value is not [null]. *)
Definition jsonField (tag : string) (members : list (string * Value)) : option Value :=
  snd <$> last (List.filter (fun m => foldEq m.1 tag && negb (isNull m.2)) members).

(** What a field of type [string], or of type [int], holds after the
    member [v] was read into it: the value of [v], or what the field held
    before ([old]) when there is no such member. *)
Definition asString (old : string) (v : option Value) : string :=
  match v with
  | Some (JString s) => s
  | _ => old
  end.

Definition asInt (old : Z) (v : option Value) : Z :=
  match v with
  | Some (JNumber literal) => default old (parseInt literal)
  | _ => old
  end.

Definition fitsString (v : Value) : bool :=
  match v with
  | JString _ | JNull => true
  | _ => false
  end.

Definition fitsInt (v : Value) : bool :=
  match v with
  | JNumber literal => bool_decide (is_Some (parseInt literal))
  | JNull => true
  | _ => false
  end.

(** Every member that names a field of [Prediction] holds a value of the
    type of that field, or [null]. *)
Definition fitsPrediction (members : list (string * Value)) : bool :=
  forallb (fun m =>
             if foldEq m.1 "name" || foldEq m.1 "country_id" then fitsString m.2
             else if foldEq m.1 "age" || foldEq m.1 "count" then fitsInt m.2
             else true)
          members.

(** The [Prediction] that an object with these members is read as. *)
Definition predictionOf (members : list (string * Value)) : Prediction :=
  {| Name := asString "" (jsonField "name" members);
     Age := asInt 0 (jsonField "age" members);
     Count := asInt 0 (jsonField "count" members);
     Country := asString "" (jsonField "country_id" members) |}.

(** An element of a batch answer that decodes: [null], or an object whose
    members fit. *)
Definition fitsElement (v : Value) : bool :=
  match v with
  | JNull => true
  | JObject members => fitsPrediction members
  | _ => false
  end.

Definition elementOf (v : Value) : Prediction :=
  match v with
  | JObject members => predictionOf members
  | _ => zeroPrediction
  end.

(** ** Worlds and responses for the examples *)

(** What [url.Parse] makes of the default base URL and of the address of a
    test server. *)
Definition agifyURL : URL :=
  {| Scheme := "https"; Opaque := ""; User := None; Host := "api.agify.io";
     Path := ""; RawPath := ""; OmitHost := false; ForceQuery := false;
     RawQuery := ""; Fragment := ""; RawFragment := "" |}.

Definition localURL : URL :=
  {| Scheme := "http"; Opaque := ""; User := None; Host := "127.0.0.1:8080";
     Path := ""; RawPath := ""; OmitHost := false; ForceQuery := false;
     RawQuery := ""; Fragment := ""; RawFragment := "" |}.

(** A server that answers every request with [resp]. *)
Definition serving (resp : Response) : World :=
  {| exchange := fun _ _ => inr resp; sent := [] |}.

(** No server can be reached. *)
Definition unreachable : World :=
  {| exchange := fun _ _ => inl (net_OpError "connection refused"); sent := [] |}.

Definition respond (status : Z) (header : http_Header) (body : string) : Response :=
  {| StatusCode := status; Header := header;
     Body := {| content := body; readError := None |} |}.

(** The answer of [TestShouldGetPredictionForName]. *)
Definition michael200 : Response :=
  respond StatusOK
    (Header_Set (Header_Set (Header_Set ∅ "X-Rate-Limit-Limit" "1000")
                   "X-Rate-Limit-Remaining" "728") "X-Rate-Reset" "15281")
    (jsonText "{'name':'michael','age':70,'count':875,'country_id':'US'}").

(** The answer of [TestShouldGetErrorWhenUnauthorized]. *)
Definition unauthorized401 : Response :=
  respond StatusUnauthorized ∅ (jsonText "{ 'error': 'Invalid API key' }").

(** The answers of [TestShouldGetErrorWhenTooManyRequests] and of
    [TestShouldGetErrorWhenUnprocessable]. *)
Definition tooManyRequests429 : Response :=
  respond StatusTooManyRequests ∅ (jsonText "{ 'error': 'Request limit reached' }").

Definition unprocessable422 : Response :=
  respond StatusUnprocessableEntity ∅ (jsonText "{ 'error': 'Too many requests' }").

(** The answer of [TestShouldHandleBatchPrediction]. *)
Definition batch200 : Response :=
  respond StatusOK ∅
    (jsonText ("[{'name':'michael','age':70,'count':233482}," +:+
               "{'name':'matthew','age':36,'count':34742}," +:+
               "{'name':'jane','age':36,'count':35010}]")).

(** A page that is not JSON, sent with status 200. *)
Definition html200 : Response :=
  respond StatusOK ∅ "<html>maintenance</html>".

(** An error response cut short after its announced length was not
    reached: the bytes read are a complete payload all the same. *)
Definition truncated500 : Response :=
  {| StatusCode := 500; Header := ∅;
     Body := {| content := jsonText "{'error':'boom'}";
                readError := Some io_ErrUnexpectedEOF |} |}.

(** An injected handle with its own transport and a five-second limit. *)
Definition injected : http_Client :=
  {| Transport := Some 1%nat; Timeout := 5000000000 |}.

(** The injected transport is a stub that answers [michael200]; the
    default transport reaches no server. *)
Definition stubbed : World :=
  {| exchange := fun h _ =>
       if decide (h = injected) then inr michael200
       else inl (net_OpError "connection refused");
     sent := [] |}.

(** ** Vocabulary of the further properties *)

(** The three options as data: which field an option sets, and to what. *)
Inductive setting : Type :=
  | setUrl (baseUrl : string)
  | setApiKey (apiKey : string)
  | setClient (httpClient : option http_Client).

Definition optionOf (s : setting) : ClientOption :=
  match s with
  | setUrl baseUrl => WithUrl baseUrl
  | setApiKey apiKey => WithApiKey apiKey
  | setClient httpClient => WithClient httpClient
  end.

Definition urlSet (s : setting) : option string :=
  match s with
  | setUrl baseUrl => Some baseUrl
  | _ => None
  end.

Definition keySet (s : setting) : option string :=
  match s with
  | setApiKey apiKey => Some apiKey
  | _ => None
  end.

Definition clientSet (s : setting) : option (option http_Client) :=
  match s with
  | setClient httpClient => Some httpClient
  | _ => None
  end.



(** The URLs that the methods of the first version print and send: as
    those of the current version, with [apikey] added whenever the key is
    not [nil]. *)
Definition V0_predictURL (client : V0.Client) (url : URL) (name country : string) : URL :=
  let values := URL_Query url in
  let values := Values_Add values "name" name in
  let values :=
    if negb (String.eqb country "") then Values_Add values "country_id" country
    else values in
  let values :=
    match V0.apiKey client with
    | Some key => Values_Add values "apikey" key
    | None => values
    end in
  setRawQuery url (Values_Encode values).

Definition V0_batchPredictURL (client : V0.Client) (url : URL) (names : list string)
    (country : string) : URL :=
  let values := URL_Query url in
  let values := Values_Add values "country_id" country in
  let values := foldl (fun values name => Values_Add values "name[]" name) values names in
  let values :=
    match V0.apiKey client with
    | Some key => Values_Add values "apikey" key
    | None => values
    end in
  setRawQuery url (Values_Encode values).

(** A line feed, as a configuration file may leave one at the end of a
    URL. *)
Definition lineFeed : string := String (ascii_of_N 10) "".

(** Two shapes of a base URL that [url.Parse] refuses: a colon in first
    place, an ASCII control byte before the first [#]. *)
Definition surelyRefused (base : string) : bool :=
  match base with
  | String c _ => Ascii.eqb c ":"
  | "" => false
  end
  || stringContainsCTLByte (strings_Cut "#" base).1.1.

(** An error of the kind [*json.UnmarshalTypeError]. *)
Definition isTypeError (err : option error) : bool :=
  match err with
  | Some (json_UnmarshalTypeError _ _) => true
  | _ => false
  end.

(** A key that names a field of [Prediction]. *)
Definition namesField (key : string) : bool :=
  foldEq key "name" || foldEq key "age" || foldEq key "count" || foldEq key "country_id".

(** What the decoding of an object into a [Prediction] looks at: the
    members whose key names a field, in their order, the case of the
    letters of the keys set aside. *)
Definition relevant (members : list (string * Value)) : list (string * Value) :=
  map (fun m => (mapBytes toLowerByte m.1, m.2))
      (List.filter (fun m => namesField m.1) members).

(** Every member that names the field of [errorResponse] holds a string
    or [null]. *)
Definition fitsErrorResponse (members : list (string * Value)) : bool :=
  forallb (fun m => if foldEq m.1 "error" then fitsString m.2 else true) members.

(** What the decoding of a value into a [Prediction], and into a
    [[]Prediction], looks at. *)
Definition seenBy (v : Value) : Value :=
  match v with
  | JObject members => JObject (relevant members)
  | _ => v
  end.

Definition seenByBatch (v : Value) : Value :=
  match v with
  | JArray elements => JArray (map seenBy elements)
  | _ => v
  end.

(** A URL without its query and its fragment, and what [String] prints
    for the fragment. *)
Definition withoutQuery (u : URL) : URL :=
  {| Scheme := Scheme u; Opaque := Opaque u; User := User u; Host := Host u;
     Path := Path u; RawPath := RawPath u; OmitHost := OmitHost u;
     ForceQuery := false; RawQuery := ""; Fragment := ""; RawFragment := "" |}.

Definition fragmentText (u : URL) : string :=
  if String.eqb (Fragment u) "" then "" else "#" +:+ EscapedFragment u.

(** * Properties *)

(** ** The request routine [get] *)

Lemma get_unfold (client : Client) (url : string) (w : World) :
  get client url w =
  (Return match exchange w DefaultClient url with
          | inl err => (None, None, Some err)
          | inr resp => classify resp
          end,
   afterRequest w DefaultClient url).
Proof.
  unfold get, http_Get, Client_Get, mbind, M_bind, afterRequest, classify, payloadError.
  destruct (exchange w DefaultClient url) as [err | resp]; [reflexivity |].
  unfold io_ReadAll, headerRateLimit.
  destruct (StatusCode resp =? StatusOK); simpl.
  - destruct (readError (Body resp)); reflexivity.
  - destruct (json_Unmarshal storeErrorResponse (content (Body resp)) zeroErrorResponse)
      as [payload [err |]]; reflexivity.
Qed.

Lemma V0_get_unfold (client : V0.Client) (url : string) (w : World) :
  V0.get client url w = get (ofV0 client) url w.
Proof. reflexivity. Qed.

(** ** The two methods, once the base URL has parsed *)

Lemma PredictWithCountry_unfold (client : Client) (name country : string) (w : World) (u : URL) :
  url_Parse (baseUrl client) = inr u ->
  PredictWithCountry client name country w =
  (Return match exchange w DefaultClient (URL_String (predictURL client u name country)) with
          | inl err => (None, None, Some err)
          | inr resp => decoded storePrediction zeroPrediction (classify resp)
          end,
   afterRequest w DefaultClient (URL_String (predictURL client u name country))).
Proof.
  intros Hu. unfold PredictWithCountry. rewrite Hu. simpl.
  unfold mbind, M_bind at 1. simpl. unfold mbind, M_bind. rewrite get_unfold.
  destruct (exchange w DefaultClient _) as [err | resp]; [reflexivity |].
  unfold decoded.
  destruct (classify resp) as [[body rateLimit] [err |]]; [reflexivity |].
  destruct (json_Unmarshal storePrediction (bytes body) zeroPrediction) as [p [err |]];
    reflexivity.
Qed.

Lemma BatchPredictWithCountry_unfold (client : Client) (names : list string) (country : string)
    (w : World) (u : URL) :
  url_Parse (baseUrl client) = inr u ->
  BatchPredictWithCountry client names country w =
  (Return match exchange w DefaultClient (URL_String (batchPredictURL client u names country)) with
          | inl err => (None, None, Some err)
          | inr resp => decoded storePredictions [] (classify resp)
          end,
   afterRequest w DefaultClient (URL_String (batchPredictURL client u names country))).
Proof.
  intros Hu. unfold BatchPredictWithCountry. rewrite Hu. simpl.
  unfold mbind, M_bind at 1. simpl. unfold mbind, M_bind. rewrite get_unfold.
  destruct (exchange w DefaultClient _) as [err | resp]; [reflexivity |].
  unfold decoded.
  destruct (classify resp) as [[body rateLimit] [err |]]; [reflexivity |].
  destruct (json_Unmarshal storePredictions (bytes body) []) as [p [err |]];
    reflexivity.
Qed.

Lemma PredictWithCountry_panics (client : Client) (name country : string) (w : World) (err : error) :
  url_Parse (baseUrl client) = inl err ->
  PredictWithCountry client name country w = (Panic nilDereference, w).
Proof. intros Hu. unfold PredictWithCountry. rewrite Hu. reflexivity. Qed.

Lemma BatchPredictWithCountry_panics (client : Client) (names : list string) (country : string)
    (w : World) (err : error) :
  url_Parse (baseUrl client) = inl err ->
  BatchPredictWithCountry client names country w = (Panic nilDereference, w).
Proof. intros Hu. unfold BatchPredictWithCountry. rewrite Hu. reflexivity. Qed.

Lemma classify_not_ok (resp : Response) :
  StatusCode resp <> StatusOK ->
  classify resp =
  (None, Some (headerRateLimit resp), Some (payloadError (content (Body resp)))).
Proof.
  intros Hs. unfold classify.
  destruct (Z.eqb_spec (StatusCode resp) StatusOK); [contradiction | reflexivity].
Qed.

Lemma decoded_error {T : Type} (store : Value -> T -> option error -> T * option error)
    (zero : T) (body : option string) (rateLimit : option RateLimit) (err : error) :
  decoded store zero (body, rateLimit, Some err) = (None, rateLimit, Some err).
Proof. reflexivity. Qed.

(** ** Transport failures and the rate limit *)

(** C3.  When the GET fails before any response arrives, [get] returns a
    nil body, a nil rate limit and the transport's error; when a response
    arrives, whatever its status, the rate limit is not nil and is the one
    of its headers.  So the rate limit is nil in the first case only. *)
Theorem get_rate_limit_nil_only_without_response
    (client : Client) (url : string) (w : World) :
  match exchange w DefaultClient url with
  | inl err => (get client url w).1 = Return (None, None, Some err)
  | inr resp =>
      exists (body : option string) (err : option error),
        (get client url w).1 = Return (body, Some (headerRateLimit resp), err)
  end.
Proof.
  rewrite get_unfold. simpl.
  destruct (exchange w DefaultClient url) as [err | resp]; [reflexivity |].
  unfold classify.
  destruct (StatusCode resp =? StatusOK); [destruct (readError (Body resp)) |]; eauto.
Qed.

(** ** Error statuses *)

(** C2.  A response with a status other than 200 gives a nil result, the
    rate limit of its headers and an error that is not nil: the message
    of the payload when the body decodes as an error payload, the failure
    to decode it otherwise.  This holds for [get] and for the single-name
    and the batch method. *)
Theorem non_ok_status_yields_error
    (client : Client) (name country : string) (names : list string)
    (w : World) (u : URL) (resp : Response) :
  url_Parse (baseUrl client) = inr u ->
  StatusCode resp <> StatusOK ->
  exists err : error,
    match json_Unmarshal storeErrorResponse (content (Body resp)) zeroErrorResponse with
    | (_, Some failure) => err = failure
    | (payload, None) => err = errorString (Error payload)
    end /\
    (forall url,
        exchange w DefaultClient url = inr resp ->
        (get client url w).1 = Return (None, Some (headerRateLimit resp), Some err)) /\
    (exchange w DefaultClient (URL_String (predictURL client u name country)) = inr resp ->
     (PredictWithCountry client name country w).1
     = Return (None, Some (headerRateLimit resp), Some err)) /\
    (exchange w DefaultClient (URL_String (batchPredictURL client u names country)) = inr resp ->
     (BatchPredictWithCountry client names country w).1
     = Return (None, Some (headerRateLimit resp), Some err)).
Proof.
  intros Hu Hs. exists (payloadError (content (Body resp))). split; [| repeat split].
  - unfold payloadError. destruct (json_Unmarshal _ _ _) as [payload [failure |]]; reflexivity.
  - intros url Hx. rewrite get_unfold. simpl. rewrite Hx. by rewrite classify_not_ok.
  - intros Hx. rewrite (PredictWithCountry_unfold _ _ _ _ _ Hu). simpl. rewrite Hx.
    by rewrite classify_not_ok.
  - intros Hx. rewrite (BatchPredictWithCountry_unfold _ _ _ _ _ Hu). simpl. rewrite Hx.
    by rewrite classify_not_ok.
Qed.

(** The three error tests of the package: the answers with status 401,
    429 and 422 give a nil prediction, a rate limit that is not nil (its
    fields empty, as no header was set) and the message of the payload. *)
Lemma non_ok_status_yields_error_witness :
  (Predict (NewClient [WithUrl "http://127.0.0.1:8080"]) "michael" (serving unauthorized401)).1
  = Return (None, Some {| Limit := ""; Remaining := ""; Reset := "" |},
            Some (errorString "Invalid API key"))
  /\ (Predict (NewClient [WithUrl "http://127.0.0.1:8080"]) "michael"
        (serving tooManyRequests429)).1
     = Return (None, Some {| Limit := ""; Remaining := ""; Reset := "" |},
               Some (errorString "Request limit reached"))
  /\ (Predict (NewClient [WithUrl "http://127.0.0.1:8080"]) "michael"
        (serving unprocessable422)).1
     = Return (None, Some {| Limit := ""; Remaining := ""; Reset := "" |},
               Some (errorString "Too many requests")).
Proof.
  pose (client := NewClient [WithUrl "http://127.0.0.1:8080"]).
  destruct (non_ok_status_yields_error client "michael" "" [] (serving unauthorized401)
              localURL unauthorized401 eq_refl ltac:(discriminate))
    as (err1 & Herr1 & _ & Hpredict1 & _).
  destruct (non_ok_status_yields_error client "michael" "" [] (serving tooManyRequests429)
              localURL tooManyRequests429 eq_refl ltac:(discriminate))
    as (err2 & Herr2 & _ & Hpredict2 & _).
  destruct (non_ok_status_yields_error client "michael" "" [] (serving unprocessable422)
              localURL unprocessable422 eq_refl ltac:(discriminate))
    as (err3 & Herr3 & _ & Hpredict3 & _).
  change (err1 = errorString "Invalid API key") in Herr1.
  change (err2 = errorString "Request limit reached") in Herr2.
  change (err3 = errorString "Too many requests") in Herr3.
  rewrite <- Herr1, <- Herr2, <- Herr3.
  exact (conj (Hpredict1 eq_refl) (conj (Hpredict2 eq_refl) (Hpredict3 eq_refl))).
Defined.

(** ** A body that cannot be read to its end *)

(** C10, counterexample.  A 500 response that announces more bytes than
    it sends and breaks off after a complete payload: the read fails, yet
    the bytes read decode, and the caller gets the message of the payload,
    which is no decode failure. *)
Lemma truncated_payload_is_decoded :
  readError (Body truncated500) = Some io_ErrUnexpectedEOF /\
  json_Unmarshal storeErrorResponse (content (Body truncated500)) zeroErrorResponse
  = ({| Error := "boom" |}, None) /\
  (get (NewClient []) "https://api.agify.io?name=michael" (serving truncated500)).1
  = Return (None, Some {| Limit := ""; Remaining := ""; Reset := "" |},
            Some (errorString "boom")).
Proof. repeat split; vm_compute; reflexivity. Qed.

(** C10, amended.  For a response with a status other than 200 the error
    of the read is dropped: the error [get] returns is what the bytes read
    so far give when decoded as an error payload (the decode failure when
    they do not decode, the message of the payload when they do), and the
    whole answer is the one for the same status, headers and bytes without
    a read error.  With status 200 the error of the read is what [get]
    returns; so it reaches the caller with that status only. *)
Theorem read_error_dropped_unless_ok
    (client : Client) (url : string) (w : World) (resp : Response) :
  exchange w DefaultClient url = inr resp ->
  (StatusCode resp <> StatusOK ->
   exists err : error,
     (forall (payload : errorResponse) (failure : error),
         json_Unmarshal storeErrorResponse (content (Body resp)) zeroErrorResponse
         = (payload, Some failure) ->
         err = failure)
     /\ (forall payload : errorResponse,
           json_Unmarshal storeErrorResponse (content (Body resp)) zeroErrorResponse
           = (payload, None) ->
           err = errorString (Error payload))
     /\ (get client url w).1 = Return (None, Some (headerRateLimit resp), Some err)
     /\ forall w' : World,
          exchange w' DefaultClient url
          = inr {| StatusCode := StatusCode resp; Header := Header resp;
                   Body := {| content := content (Body resp); readError := None |} |} ->
          (get client url w').1 = (get client url w).1) /\
  (forall err : error,
      StatusCode resp = StatusOK ->
      readError (Body resp) = Some err ->
      (get client url w).1 = Return (None, Some (headerRateLimit resp), Some err)).
Proof.
  intros Hx. rewrite get_unfold. simpl. rewrite Hx. split.
  - intros Hs. exists (payloadError (content (Body resp))). repeat split.
    + intros payload failure Hd. unfold payloadError. by rewrite Hd.
    + intros payload Hd. unfold payloadError. by rewrite Hd.
    + by rewrite classify_not_ok.
    + intros w' Hx'. rewrite get_unfold. simpl. rewrite Hx'.
      rewrite !classify_not_ok by done. reflexivity.
  - intros err Hs Hr. unfold classify. rewrite Hs, Hr. reflexivity.
Qed.

(** The truncated 500 response: the caller gets the message of the
    payload and nothing of the failed read. *)
Lemma read_error_dropped_unless_ok_witness :
  exists err : error,
    err = errorString "boom"
    /\ (get (NewClient []) "https://api.agify.io?name=michael" (serving truncated500)).1
       = Return (None, Some {| Limit := ""; Remaining := ""; Reset := "" |}, Some err).
Proof.
  destruct (proj1 (read_error_dropped_unless_ok (NewClient [])
                     "https://api.agify.io?name=michael" (serving truncated500)
                     truncated500 eq_refl) ltac:(discriminate))
    as (err & _ & Herr & Hget & _).
  exists err. split; [exact (Herr {| Error := "boom" |} eq_refl) | exact Hget].
Defined.

(** ** The injected HTTP client *)

(** The handle stored in the client plays no part in [get]. *)
Lemma get_ignores_handle (client : Client) (h : option http_Client) (url : string) (w : World) :
  get {| apiKey := apiKey client; baseUrl := baseUrl client; http := h |} url w
  = get client url w.
Proof. reflexivity. Qed.

(** C7, as the code has it.  A client built with an injected handle whose
    transport is a stub answering 200, in a world whose default transport
    reaches no server: the one request goes through [http.DefaultClient],
    not through the injected handle, and the caller gets the error of the
    default transport. *)
Theorem injected_client_is_not_used :
  http (NewClient [WithClient (Some injected)]) = Some injected /\
  exchange stubbed injected "https://api.agify.io?name=michael" = inr michael200 /\
  Predict (NewClient [WithClient (Some injected)]) "michael" stubbed
  = (Return (None, None, Some (net_OpError "connection refused")),
     {| exchange := exchange stubbed;
        sent := [(DefaultClient, "https://api.agify.io?name=michael")] |}).
Proof. repeat split. Qed.

(** ** A base URL that does not parse *)

(** C8, as the code has it.  With the base URL ["://"], which [url.Parse]
    refuses, both methods panic on a nil pointer before any request is
    made, whatever the name, the country and the world. *)
Theorem malformed_base_url_panics
    (name country : string) (names : list string) (w : World) :
  url_Parse "://" = inl (url_Error "parse" "://" (errorString "missing protocol scheme")) /\
  PredictWithCountry (NewClient [WithUrl "://"]) name country w = (Panic nilDereference, w) /\
  BatchPredictWithCountry (NewClient [WithUrl "://"]) names country w
  = (Panic nilDereference, w).
Proof. repeat split. Qed.

(** ** No state between calls *)

(** C9.  The answer of a call is fixed by the client, the arguments and
    what the world answers through the default handle: two worlds that
    answer alike, whatever was sent before in each, give the same answer,
    and a call leaves the answers of the world as they were.  So a second
    call with the same arguments, made after the first, returns the same
    prediction and rate limit. *)
Theorem same_inputs_same_answer
    (client : Client) (name country : string) (names : list string) (w1 w2 : World) :
  (forall url, exchange w1 DefaultClient url = exchange w2 DefaultClient url) ->
  (PredictWithCountry client name country w1).1 = (PredictWithCountry client name country w2).1
  /\ (BatchPredictWithCountry client names country w1).1
     = (BatchPredictWithCountry client names country w2).1
  /\ exchange (PredictWithCountry client name country w1).2 = exchange w1
  /\ exchange (BatchPredictWithCountry client names country w1).2 = exchange w1
  /\ (PredictWithCountry client name country (PredictWithCountry client name country w1).2).1
     = (PredictWithCountry client name country w1).1.
Proof.
  intros Hsame.
  destruct (url_Parse (baseUrl client)) as [err | u] eqn:Hu.
  - rewrite !(PredictWithCountry_panics _ _ _ _ _ Hu).
    rewrite !(BatchPredictWithCountry_panics _ _ _ _ _ Hu). simpl.
    rewrite ?(PredictWithCountry_panics _ _ _ _ _ Hu). done.
  - rewrite !(PredictWithCountry_unfold _ _ _ _ _ Hu).
    rewrite !(BatchPredictWithCountry_unfold _ _ _ _ _ Hu). simpl.
    rewrite ?(PredictWithCountry_unfold _ _ _ _ _ Hu). simpl.
    rewrite !Hsame. done.
Qed.

Lemma same_inputs_same_answer_witness :
  (Predict (NewClient []) "michael" (serving michael200)).1
  = (Predict (NewClient []) "michael"
       (afterRequest (serving michael200) DefaultClient "https://api.agify.io?name=peter")).1.
Proof.
  exact (proj1 (same_inputs_same_answer (NewClient []) "michael" "" []
                  (serving michael200)
                  (afterRequest (serving michael200) DefaultClient
                     "https://api.agify.io?name=peter")
                  (fun url => eq_refl))).
Defined.

(** ** What [json.Unmarshal] stores *)

Lemma jsonField_snoc (tag : string) (members : list (string * Value)) (m : string * Value) :
  jsonField tag (members ++ [m])
  = if foldEq m.1 tag && negb (isNull m.2) then Some m.2 else jsonField tag members.
Proof.
  unfold jsonField. rewrite List.filter_app. simpl.
  destruct (foldEq m.1 tag && negb (isNull m.2)).
  - by rewrite last_snoc.
  - by rewrite app_nil_r.
Qed.

Lemma jsonField_one (tag : string) (m : string * Value) :
  jsonField tag [m] = if foldEq m.1 tag && negb (isNull m.2) then Some m.2 else None.
Proof. exact (jsonField_snoc tag [] m). Qed.

Lemma foldEq_tags (key tag1 tag2 : string) :
  foldEq key tag1 = true -> tag1 <> tag2 -> foldEq key tag2 = false.
Proof.
  unfold foldEq. intros H1 Hne.
  apply String.eqb_eq in H1. apply String.eqb_neq. congruence.
Qed.

Lemma storePredictionField_fits (p : Prediction) (saved : option error) (m : string * Value) :
  fitsPrediction [m] = true ->
  storePredictionField (p, saved) m
  = ({| Name := asString (Name p) (jsonField "name" [m]);
        Age := asInt (Age p) (jsonField "age" [m]);
        Count := asInt (Count p) (jsonField "count" [m]);
        Country := asString (Country p) (jsonField "country_id" [m]) |}, saved).
Proof.
  destruct m as [key v]. destruct p as [n a c k].
  unfold fitsPrediction, storePredictionField, jsonField. simpl.
  rewrite andb_true_r.
  destruct (foldEq key "name") eqn:Hname.
  { rewrite (foldEq_tags _ _ "age" Hname), (foldEq_tags _ _ "count" Hname),
      (foldEq_tags _ _ "country_id" Hname) by discriminate. simpl.
    destruct v; simpl; try discriminate; reflexivity. }
  destruct (foldEq key "country_id") eqn:Hcountry.
  { rewrite (foldEq_tags _ _ "age" Hcountry), (foldEq_tags _ _ "count" Hcountry)
      by discriminate. simpl.
    destruct v; simpl; try discriminate; reflexivity. }
  simpl.
  destruct (foldEq key "age") eqn:Hage.
  { rewrite (foldEq_tags _ _ "count" Hage) by discriminate. simpl.
    destruct v as [| | literal | | |]; simpl; try discriminate; try reflexivity.
    intros Hfit. apply bool_decide_eq_true in Hfit. destruct Hfit as [z Hz].
    rewrite Hz. reflexivity. }
  destruct (foldEq key "count") eqn:Hcount; simpl; [| reflexivity].
  destruct v as [| | literal | | |]; simpl; try discriminate; try reflexivity.
  intros Hfit. apply bool_decide_eq_true in Hfit. destruct Hfit as [z Hz].
  rewrite Hz. reflexivity.
Qed.

Lemma asString_snoc (tag : string) (members : list (string * Value)) (m : string * Value)
    (old : string) :
  (foldEq m.1 tag = true -> fitsString m.2 = true) ->
  asString (asString old (jsonField tag members)) (jsonField tag [m])
  = asString old (jsonField tag (members ++ [m])).
Proof.
  intros Hfit. rewrite jsonField_snoc, jsonField_one.
  destruct (foldEq m.1 tag); simpl; [| reflexivity].
  specialize (Hfit eq_refl). destruct m.2; simpl; try discriminate; reflexivity.
Qed.

Lemma asInt_snoc (tag : string) (members : list (string * Value)) (m : string * Value)
    (old : Z) :
  (foldEq m.1 tag = true -> fitsInt m.2 = true) ->
  asInt (asInt old (jsonField tag members)) (jsonField tag [m])
  = asInt old (jsonField tag (members ++ [m])).
Proof.
  intros Hfit. rewrite jsonField_snoc, jsonField_one.
  destruct (foldEq m.1 tag); simpl; [| reflexivity].
  specialize (Hfit eq_refl). destruct m.2 as [| | literal | | |]; simpl in *;
    try discriminate; try reflexivity.
  apply bool_decide_eq_true in Hfit. destruct Hfit as [z Hz]. rewrite Hz. reflexivity.
Qed.

Lemma fitsPrediction_one (m : string * Value) :
  fitsPrediction [m] = true ->
  (foldEq m.1 "name" = true -> fitsString m.2 = true)
  /\ (foldEq m.1 "age" = true -> fitsInt m.2 = true)
  /\ (foldEq m.1 "count" = true -> fitsInt m.2 = true)
  /\ (foldEq m.1 "country_id" = true -> fitsString m.2 = true).
Proof.
  unfold fitsPrediction. simpl. rewrite andb_true_r. intros Hfit.
  repeat split; intros Htag; rewrite Htag in Hfit; simpl in Hfit.
  - exact Hfit.
  - by rewrite (foldEq_tags _ _ "name" Htag), (foldEq_tags _ _ "country_id" Htag) in Hfit.
  - rewrite (foldEq_tags _ _ "name" Htag), (foldEq_tags _ _ "country_id" Htag) in Hfit
      by discriminate.
    simpl in Hfit. by rewrite orb_true_r in Hfit.
  - by rewrite orb_true_r in Hfit.
Qed.

(** The members of an object, read one after the other into [p], leave in
    each field the value of the last fitting member that names it. *)
Lemma storePrediction_members (members : list (string * Value)) :
  fitsPrediction members = true ->
  forall (p : Prediction) (saved : option error),
    foldl storePredictionField (p, saved) members
    = ({| Name := asString (Name p) (jsonField "name" members);
          Age := asInt (Age p) (jsonField "age" members);
          Count := asInt (Count p) (jsonField "count" members);
          Country := asString (Country p) (jsonField "country_id" members) |}, saved).
Proof.
  induction members as [| m members IH] using rev_ind; intros Hfit p saved.
  - by destruct p.
  - unfold fitsPrediction in Hfit. rewrite forallb_app in Hfit.
    apply andb_true_iff in Hfit as [Hfit Hm].
    rewrite foldl_app, (IH Hfit). cbn [foldl].
    rewrite (storePredictionField_fits _ _ _ Hm). cbn [Name Age Count Country].
    destruct (fitsPrediction_one m Hm) as (Hn & Ha & Hc & Hk).
    by rewrite !asString_snoc, !asInt_snoc.
Qed.

Lemma Unmarshal_object (body : string) (members : list (string * Value)) :
  json_parse body = Some (JObject members) ->
  fitsPrediction members = true ->
  json_Unmarshal storePrediction body zeroPrediction = (predictionOf members, None).
Proof.
  intros Hparse Hfit. unfold json_Unmarshal. rewrite Hparse. simpl.
  by rewrite storePrediction_members.
Qed.

Lemma storePrediction_element (v : Value) (saved : option error) :
  fitsElement v = true ->
  storePrediction v zeroPrediction saved = (elementOf v, saved).
Proof.
  destruct v; simpl; try discriminate; [reflexivity |].
  intros Hfit. by rewrite storePrediction_members.
Qed.

(** The elements of an array, read one after the other, give one
    prediction each, in their order. *)
Lemma storePredictions_elements (elements : list Value) :
  forallb fitsElement elements = true ->
  storePredictions (JArray elements) [] None = (map elementOf elements, None).
Proof.
  intros Hfit. simpl.
  enough (forall acc : list Prediction,
             foldl (fun st e =>
                      let '(p, saved) := storePrediction e zeroPrediction st.2 in
                      (st.1 ++ [p], saved)) (acc, None) elements
             = (acc ++ map elementOf elements, None)) as H by apply (H []).
  induction elements as [| e elements IH]; intros acc; simpl.
  - by rewrite app_nil_r.
  - simpl in Hfit. apply andb_true_iff in Hfit as [He Hfit].
    rewrite (storePrediction_element _ _ He), (IH Hfit). by rewrite <- app_assoc.
Qed.

(** ** Successful single-name calls *)

(** C1, counterexample.  A response with status 200 whose body is not
    JSON: the prediction is nil and the error is not. *)
Lemma ok_status_without_json_is_error :
  StatusCode html200 = StatusOK /\
  (Predict (NewClient []) "michael" (serving html200)).1
  = Return (None, Some {| Limit := ""; Remaining := ""; Reset := "" |},
            Some json_SyntaxError).
Proof. split; vm_compute; reflexivity. Qed.

(** C1, amended.  When the transport returns a response with status 200
    whose body is read to its end and is a JSON object whose members fit
    the fields they name, the single-name call returns a prediction that
    is not nil and whose name, age, count and country are the members
    [name], [age], [count] and [country_id] of that object (the zero
    value for a member that is absent or [null]), a rate limit whose three
    fields are the headers [X-Rate-Limit-Limit], [X-Rate-Limit-Remaining]
    and [X-Rate-Reset] of the response, and a nil error. *)
Theorem ok_response_is_decoded
    (client : Client) (name country : string) (w : World) (u : URL) (resp : Response)
    (members : list (string * Value)) :
  url_Parse (baseUrl client) = inr u ->
  exchange w DefaultClient (URL_String (predictURL client u name country)) = inr resp ->
  StatusCode resp = StatusOK ->
  readError (Body resp) = None ->
  json_parse (content (Body resp)) = Some (JObject members) ->
  fitsPrediction members = true ->
  (PredictWithCountry client name country w).1
  = Return (Some {| Name := asString "" (jsonField "name" members);
                    Age := asInt 0 (jsonField "age" members);
                    Count := asInt 0 (jsonField "count" members);
                    Country := asString "" (jsonField "country_id" members) |},
            Some {| Limit := Header_Get (Header resp) "X-Rate-Limit-Limit";
                    Remaining := Header_Get (Header resp) "X-Rate-Limit-Remaining";
                    Reset := Header_Get (Header resp) "X-Rate-Reset" |},
            None).
Proof.
  intros Hu Hx Hs Hr Hparse Hfit.
  rewrite (PredictWithCountry_unfold _ _ _ _ _ Hu). simpl. rewrite Hx.
  unfold classify, decoded. rewrite Hs, Hr. simpl.
  by rewrite (Unmarshal_object _ _ Hparse Hfit).
Qed.

(** The answer of [TestShouldGetPredictionForName] and what the test
    expects of it. *)
Lemma ok_response_is_decoded_witness :
  (Predict (NewClient [WithUrl "http://127.0.0.1:8080"]) "michael" (serving michael200)).1
  = Return (Some {| Name := "michael"; Age := 70; Count := 875; Country := "US" |},
            Some {| Limit := "1000"; Remaining := "728"; Reset := "15281" |},
            None).
Proof.
  exact (ok_response_is_decoded
           (NewClient [WithUrl "http://127.0.0.1:8080"]) "michael" "" (serving michael200)
           {| Scheme := "http"; Opaque := ""; User := None; Host := "127.0.0.1:8080";
              Path := ""; RawPath := ""; OmitHost := false; ForceQuery := false;
              RawQuery := ""; Fragment := ""; RawFragment := "" |}
           michael200
           [("name", JString "michael"); ("age", JNumber "70");
            ("count", JNumber "875"); ("country_id", JString "US")]
           eq_refl eq_refl eq_refl eq_refl eq_refl eq_refl).
Defined.

(** ** Query strings: what is encoded is what a server parses *)

Lemma escape_cons_check (c : ascii) (s : string) :
  unescape_check (escape (String c s) encodeQueryComponent) encodeQueryComponent
  = unescape_check (escape s encodeQueryComponent) encodeQueryComponent.
Proof.
  destruct c as [[] [] [] [] [] [] [] []]; reflexivity.
Qed.

Lemma escape_cons_decode (c : ascii) (s : string) :
  unescape_decode (escape (String c s) encodeQueryComponent) encodeQueryComponent
  = String c (unescape_decode (escape s encodeQueryComponent) encodeQueryComponent).
Proof.
  destruct c as [[] [] [] [] [] [] [] []]; reflexivity.
Qed.

Lemma escape_cons_bytes (c : ascii) (s : string) :
  allBytes escapedByte (escape (String c s) encodeQueryComponent)
  = allBytes escapedByte (escape s encodeQueryComponent).
Proof.
  destruct c as [[] [] [] [] [] [] [] []]; reflexivity.
Qed.

Lemma QueryUnescape_QueryEscape (s : string) : QueryUnescape (QueryEscape s) = inr s.
Proof.
  unfold QueryUnescape, QueryEscape, unescape.
  assert (unescape_check (escape s encodeQueryComponent) encodeQueryComponent = None) as ->.
  { induction s as [| c s IH]; [reflexivity |]. by rewrite escape_cons_check. }
  f_equal. induction s as [| c s IH]; [reflexivity |].
  by rewrite escape_cons_decode, IH.
Qed.

Lemma QueryEscape_bytes (s : string) : allBytes escapedByte (QueryEscape s) = true.
Proof.
  unfold QueryEscape. induction s as [| c s IH]; [reflexivity |].
  by rewrite escape_cons_bytes.
Qed.

Lemma allBytes_app (p : ascii -> bool) (s t : string) :
  allBytes p (s +:+ t) = allBytes p s && allBytes p t.
Proof.
  induction s as [| c s IH]; simpl; [reflexivity |].
  by rewrite IH, andb_assoc.
Qed.

Lemma allBytes_impl (p q : ascii -> bool) (s : string) :
  (forall c, p c = true -> q c = true) -> allBytes p s = true -> allBytes q s = true.
Proof.
  intros Hpq. induction s as [| c s IH]; simpl; [done |].
  intros [Hc Hs]%andb_true_iff. by rewrite (Hpq _ Hc), IH.
Qed.

Lemma escapedByte_not (sep : ascii) (c : ascii) :
  oneOf "&=;" sep = true -> escapedByte c = true -> Ascii.eqb c sep = false.
Proof.
  intros Hsep Hc. destruct (Ascii.eqb_spec c sep) as [-> |]; [| reflexivity].
  destruct sep as [[] [] [] [] [] [] [] []]; discriminate.
Qed.

Lemma strings_Cut_absent (sep : ascii) (s : string) :
  allBytes (fun c => negb (Ascii.eqb c sep)) s = true ->
  strings_Cut sep s = (s, "", false).
Proof.
  induction s as [| c s IH]; simpl; [reflexivity |].
  intros [Hc Hs]%andb_true_iff. apply negb_true_iff in Hc. by rewrite Hc, IH.
Qed.

Lemma strings_Cut_found (sep : ascii) (s t : string) :
  allBytes (fun c => negb (Ascii.eqb c sep)) s = true ->
  strings_Cut sep (s +:+ String sep t) = (s, t, true).
Proof.
  induction s as [| c s IH]; simpl.
  - by rewrite Ascii.eqb_refl.
  - intros [Hc Hs]%andb_true_iff. apply negb_true_iff in Hc. by rewrite Hc, IH.
Qed.

Lemma escaped_without (sep : ascii) (s : string) :
  oneOf "&=;" sep = true ->
  allBytes (fun c => negb (Ascii.eqb c sep)) (QueryEscape s) = true.
Proof.
  intros Hsep. eapply allBytes_impl; [| apply QueryEscape_bytes].
  intros c Hc. by rewrite (escapedByte_not sep c).
Qed.

Lemma encodePair_without (sep : ascii) (kv : string * string) :
  oneOf "&;" sep = true ->
  allBytes (fun c => negb (Ascii.eqb c sep)) (encodePair kv) = true.
Proof.
  intros Hsep. unfold encodePair. rewrite !allBytes_app.
  assert (oneOf "&=;" sep = true) as Hsep'.
  { destruct sep as [[] [] [] [] [] [] [] []]; try discriminate; reflexivity. }
  rewrite !escaped_without by done. simpl.
  destruct sep as [[] [] [] [] [] [] [] []]; try discriminate; reflexivity.
Qed.

(** One pair, parsed back. *)
Lemma parseQuery_step_encodePair (m : Values) (err : option error) (kv : string * string) :
  parseQuery_step (m, err) (encodePair kv) = (Values_Add m kv.1 kv.2, err).
Proof.
  unfold parseQuery_step, strings_Contains.
  rewrite (strings_Cut_absent ";") by (by apply encodePair_without). simpl.
  assert (String.eqb (encodePair kv) "" = false) as ->.
  { unfold encodePair. destruct (QueryEscape kv.1); reflexivity. }
  unfold encodePair.
  change (QueryEscape kv.1 +:+ "=" +:+ QueryEscape kv.2)
    with (QueryEscape kv.1 +:+ String "=" (QueryEscape kv.2)).
  rewrite strings_Cut_found by (by apply escaped_without).
  by rewrite !QueryUnescape_QueryEscape.
Qed.

Lemma pieces_single (p : string) :
  p <> "" -> allBytes (fun c => negb (Ascii.eqb c "&")) p = true -> pieces "&" p = [p].
Proof.
  induction p as [| c p IH]; [done |]. intros _ [Hc Hp]%andb_true_iff.
  apply negb_true_iff in Hc. simpl. rewrite Hc.
  destruct p as [| d p]; [reflexivity |]. by rewrite IH.
Qed.

Lemma pieces_app (p rest : string) :
  allBytes (fun c => negb (Ascii.eqb c "&")) p = true ->
  pieces "&" (p +:+ String "&" rest) = p :: pieces "&" rest.
Proof.
  induction p as [| c p IH]; [reflexivity |]. intros [Hc Hp]%andb_true_iff.
  apply negb_true_iff in Hc. simpl. by rewrite Hc, IH.
Qed.

Lemma pieces_concat (parts : list string) :
  Forall (fun p => p <> "" /\ allBytes (fun c => negb (Ascii.eqb c "&")) p = true) parts ->
  pieces "&" (String.concat "&" parts) = parts.
Proof.
  induction 1 as [| p parts [Hne Hp] Hparts IH]; [reflexivity |].
  destruct parts as [| q parts]; [by apply pieces_single |].
  change (String.concat "&" (p :: q :: parts))
    with (p +:+ String "&" (String.concat "&" (q :: parts))).
  by rewrite pieces_app, IH.
Qed.

Lemma Values_Encode_pairs (v : Values) :
  Values_Encode v = String.concat "&" (map encodePair (pairsOf v (sortedKeys v))).
Proof.
  unfold Values_Encode, pairsOf. f_equal.
  induction (sortedKeys v) as [| k keys IH]; [reflexivity |].
  simpl. rewrite IH, map_app, map_map. reflexivity.
Qed.

Lemma parse_encoded_pairs (pairs : list (string * string)) (m : Values) (err : option error) :
  foldl parseQuery_step (m, err) (map encodePair pairs)
  = (foldl (fun m kv => Values_Add m kv.1 kv.2) m pairs, err).
Proof.
  revert m. induction pairs as [| kv pairs IH]; intros m; [reflexivity |].
  cbn [map foldl list_fmap]. by rewrite parseQuery_step_encodePair, IH.
Qed.

Lemma Values_Add_lookup (m : Values) (key value k : string) :
  Values_Add m key value !!! k
  = if decide (key = k) then m !!! k ++ [value] else m !!! k.
Proof.
  unfold Values_Add. rewrite lookup_total_insert.
  destruct (decide (key = k)) as [-> |]; reflexivity.
Qed.

Lemma add_values_lookup (k0 : string) (xs : list string) (m : Values) (k : string) :
  foldl (fun m kv => Values_Add m kv.1 kv.2) m (map (fun x => (k0, x)) xs) !!! k
  = if decide (k0 = k) then m !!! k ++ xs else m !!! k.
Proof.
  revert m. induction xs as [| x xs IH]; intros m; simpl.
  - destruct (decide (k0 = k)); by rewrite ?app_nil_r.
  - rewrite IH, Values_Add_lookup.
    destruct (decide (k0 = k)); by rewrite <- ?app_assoc.
Qed.

Lemma add_pairs_lookup (v : Values) (keys : list string) (m : Values) (k : string) :
  NoDup keys ->
  foldl (fun m kv => Values_Add m kv.1 kv.2) m (pairsOf v keys) !!! k
  = if decide (k ∈ keys) then m !!! k ++ v !!! k else m !!! k.
Proof.
  intros Hnd. revert m. induction Hnd as [| k0 keys Hk0 Hnd IH]; intros m.
  - simpl. destruct (decide (k ∈ [])) as [Hin |]; [| reflexivity].
    by apply elem_of_nil in Hin.
  - unfold pairsOf in *. simpl. rewrite foldl_app, IH, add_values_lookup.
    destruct (decide (k0 = k)) as [-> |].
    + rewrite decide_False by done. by rewrite decide_True by left.
    + destruct (decide (k ∈ keys)) as [Hin | Hnin].
      * by rewrite decide_True by (by right).
      * rewrite decide_False; [reflexivity |].
        intros [? | ?]%elem_of_cons; congruence.
Qed.

Lemma sortedKeys_NoDup (v : Values) : NoDup (sortedKeys v).
Proof.
  unfold sortedKeys. rewrite merge_sort_Permutation. apply NoDup_elements.
Qed.

Lemma elem_of_sortedKeys (v : Values) (k : string) : k ∈ sortedKeys v <-> is_Some (v !! k).
Proof.
  unfold sortedKeys. rewrite merge_sort_Permutation, elem_of_elements.
  apply elem_of_dom.
Qed.

(** What [Encode] writes, [ParseQuery] reads back without an error: every
    key has the values it had, in their order. *)
Lemma ParseQuery_Encode (v : Values) (k : string) :
  (ParseQuery (Values_Encode v)).1 !!! k = v !!! k
  /\ (ParseQuery (Values_Encode v)).2 = None.
Proof.
  unfold ParseQuery. rewrite Values_Encode_pairs, pieces_concat.
  - rewrite parse_encoded_pairs. simpl. split; [| reflexivity].
    rewrite add_pairs_lookup by apply sortedKeys_NoDup.
    rewrite lookup_total_empty. simpl.
    destruct (decide (k ∈ sortedKeys v)) as [| Hnin]; [reflexivity |].
    rewrite elem_of_sortedKeys in Hnin.
    rewrite lookup_total_alt. by destruct (v !! k) as [xs |]; [destruct Hnin |].
  - apply Forall_forall. intros p [kv [-> _]]%list_elem_of_fmap. split.
    + unfold encodePair. by destruct (QueryEscape kv.1).
    + by apply encodePair_without.
Qed.

(** The query a server reads from a URL whose [RawQuery] was set to the
    encoding of [v]. *)
Lemma Query_of_encoded (u : URL) (v : Values) (k : string) :
  URL_Query (setRawQuery u (Values_Encode v)) !!! k = v !!! k.
Proof. unfold URL_Query. simpl. apply ParseQuery_Encode. Qed.

Lemma pieces_Encode (v : Values) :
  pieces "&" (Values_Encode v) = map encodePair (pairsOf v (sortedKeys v)).
Proof.
  rewrite Values_Encode_pairs. apply pieces_concat.
  apply Forall_forall. intros p [kv [-> _]]%list_elem_of_fmap. split.
  - unfold encodePair. by destruct (QueryEscape kv.1).
  - by apply encodePair_without.
Qed.

(** A value that [v] holds under a key is written as one [key=value]
    piece of the encoded query. *)
Lemma Encode_has_pair (v : Values) (key value : string) :
  value ∈ v !!! key ->
  QueryEscape key +:+ "=" +:+ QueryEscape value ∈ pieces "&" (Values_Encode v).
Proof.
  intros Hin. rewrite pieces_Encode.
  apply (list_elem_of_fmap_2 encodePair _ (key, value)).
  unfold pairsOf. apply list_elem_of_In, in_flat_map. exists key. split.
  - apply list_elem_of_In, elem_of_sortedKeys.
    rewrite lookup_total_alt in Hin. destruct (v !! key); [done |].
    by apply elem_of_nil in Hin.
  - apply list_elem_of_In. by apply (list_elem_of_fmap_2 (fun x => (key, x))).
Qed.

Lemma add_names_lookup (key : string) (names : list string) (m : Values) (k : string) :
  foldl (fun values name => Values_Add values key name) m names !!! k
  = if decide (key = k) then m !!! k ++ names else m !!! k.
Proof.
  revert m. induction names as [| x names IH]; intros m; simpl.
  - destruct (decide (key = k)); by rewrite ?app_nil_r.
  - rewrite IH, Values_Add_lookup.
    destruct (decide (key = k)); by rewrite <- ?app_assoc.
Qed.

Ltac add_lookup :=
  repeat first
    [ rewrite Values_Add_lookup | rewrite add_names_lookup
    | rewrite decide_True by reflexivity | rewrite decide_False by discriminate ].

Lemma predictURL_country (client : Client) (u : URL) (name country : string) :
  URL_Query (predictURL client u name country) !!! "country_id"
  = URL_Query u !!! "country_id" ++ (if String.eqb country "" then [] else [country]).
Proof.
  unfold predictURL. rewrite Query_of_encoded.
  destruct (String.eqb country ""), (String.eqb (apiKey client) ""); simpl; add_lookup;
    by rewrite ?app_nil_r.
Qed.

Lemma batchPredictURL_country (client : Client) (u : URL) (names : list string)
    (country : string) :
  URL_Query (batchPredictURL client u names country) !!! "country_id"
  = URL_Query u !!! "country_id" ++ [country].
Proof.
  unfold batchPredictURL. rewrite Query_of_encoded.
  destruct (String.eqb (apiKey client) ""); simpl; by add_lookup.
Qed.

Lemma batchPredictURL_names (client : Client) (u : URL) (names : list string)
    (country : string) :
  URL_Query (batchPredictURL client u names country) !!! "name[]"
  = URL_Query u !!! "name[]" ++ names.
Proof.
  unfold batchPredictURL. rewrite Query_of_encoded.
  destruct (String.eqb (apiKey client) ""); simpl; by add_lookup.
Qed.

Lemma predictURL_name (client : Client) (u : URL) (name country : string) :
  URL_Query (predictURL client u name country) !!! "name"
  = URL_Query u !!! "name" ++ [name].
Proof.
  unfold predictURL. rewrite Query_of_encoded.
  destruct (String.eqb country ""), (String.eqb (apiKey client) ""); simpl; by add_lookup.
Qed.

Lemma predictURL_apikey (client : Client) (u : URL) (name country : string) :
  URL_Query (predictURL client u name country) !!! "apikey"
  = URL_Query u !!! "apikey"
    ++ (if String.eqb (apiKey client) "" then [] else [apiKey client]).
Proof.
  unfold predictURL. rewrite Query_of_encoded.
  destruct (String.eqb country ""), (String.eqb (apiKey client) ""); simpl; add_lookup;
    by rewrite ?app_nil_r.
Qed.

Lemma batchPredictURL_apikey (client : Client) (u : URL) (names : list string)
    (country : string) :
  URL_Query (batchPredictURL client u names country) !!! "apikey"
  = URL_Query u !!! "apikey"
    ++ (if String.eqb (apiKey client) "" then [] else [apiKey client]).
Proof.
  unfold batchPredictURL. rewrite Query_of_encoded.
  destruct (String.eqb (apiKey client) ""); simpl; add_lookup; by rewrite ?app_nil_r.
Qed.

Lemma PredictWithCountry_sent (client : Client) (name country : string) (w : World) (u : URL) :
  url_Parse (baseUrl client) = inr u ->
  sent (PredictWithCountry client name country w).2
  = sent w ++ [(DefaultClient, URL_String (predictURL client u name country))].
Proof. intros Hu. by rewrite (PredictWithCountry_unfold _ _ _ _ _ Hu). Qed.

Lemma BatchPredictWithCountry_sent (client : Client) (names : list string) (country : string)
    (w : World) (u : URL) :
  url_Parse (baseUrl client) = inr u ->
  sent (BatchPredictWithCountry client names country w).2
  = sent w ++ [(DefaultClient, URL_String (batchPredictURL client u names country))].
Proof. intros Hu. by rewrite (BatchPredictWithCountry_unfold _ _ _ _ _ Hu). Qed.

(** ** The query of a request *)

(** C4.  The request of the single-name method carries the [country_id]
    values of the base URL and, after them, the country when it is not
    empty and nothing when it is; the request of the batch method carries
    the country after them in every case, the empty one included. *)
Theorem country_id_single_if_given_batch_always
    (client : Client) (name country : string) (names : list string) (w : World) (u : URL) :
  url_Parse (baseUrl client) = inr u ->
  sent (PredictWithCountry client name country w).2
  = sent w ++ [(DefaultClient, URL_String (predictURL client u name country))]
  /\ sent (BatchPredictWithCountry client names country w).2
     = sent w ++ [(DefaultClient, URL_String (batchPredictURL client u names country))]
  /\ URL_Query (predictURL client u name country) !!! "country_id"
     = URL_Query u !!! "country_id" ++ (if String.eqb country "" then [] else [country])
  /\ URL_Query (batchPredictURL client u names country) !!! "country_id"
     = URL_Query u !!! "country_id" ++ [country].
Proof.
  intros Hu. split; [by apply PredictWithCountry_sent |].
  split; [by apply BatchPredictWithCountry_sent |].
  split; [apply predictURL_country | apply batchPredictURL_country].
Qed.

(** With the default base URL and no country, the single-name request has
    no [country_id] and the batch request has an empty one. *)
Lemma country_id_single_if_given_batch_always_witness :
  sent (PredictWithCountry (NewClient []) "michael" "" unreachable).2
  = [(DefaultClient, "https://api.agify.io?name=michael")]
  /\ sent (BatchPredictWithCountry (NewClient []) ["michael"] "" unreachable).2
     = [(DefaultClient, "https://api.agify.io?country_id=&name%5B%5D=michael")]
  /\ URL_Query (predictURL (NewClient []) agifyURL "michael" "") !!! "country_id" = []
  /\ URL_Query (batchPredictURL (NewClient []) agifyURL ["michael"] "") !!! "country_id" = [""].
Proof.
  exact (country_id_single_if_given_batch_always
           (NewClient []) "michael" "" ["michael"] unreachable agifyURL eq_refl).
Defined.

(** C5.  For a list of names, the empty one included, the batch method
    sends one request whose [name[]] values are those of the base URL's
    own query followed by the names in their order: exactly the names
    when the base URL has no [name[]] of its own.  When the response has
    status 200 and its body, read to its end, is a JSON array whose
    elements decode, the result has one prediction for each element of
    the array, in their order. *)
Theorem batch_names_in_order_results_per_element
    (client : Client) (names : list string) (country : string) (w : World) (u : URL) :
  url_Parse (baseUrl client) = inr u ->
  URL_Query u !!! "name[]" = [] ->
  sent (BatchPredictWithCountry client names country w).2
  = sent w ++ [(DefaultClient, URL_String (batchPredictURL client u names country))]
  /\ URL_Query (batchPredictURL client u names country) !!! "name[]" = names
  /\ length (URL_Query (batchPredictURL client u names country) !!! "name[]") = length names
  /\ forall (resp : Response) (elements : list Value),
       exchange w DefaultClient (URL_String (batchPredictURL client u names country))
       = inr resp ->
       StatusCode resp = StatusOK ->
       readError (Body resp) = None ->
       json_parse (content (Body resp)) = Some (JArray elements) ->
       forallb fitsElement elements = true ->
       exists predictions : list Prediction,
         (BatchPredictWithCountry client names country w).1
         = Return (Some predictions, Some (headerRateLimit resp), None)
         /\ predictions = map elementOf elements
         /\ length predictions = length elements.
Proof.
  intros Hu Hbase.
  assert (URL_Query (batchPredictURL client u names country) !!! "name[]" = names) as Hnames.
  { by rewrite batchPredictURL_names, Hbase. }
  split; [by apply BatchPredictWithCountry_sent |].
  split; [exact Hnames |]. split; [by rewrite Hnames |].
  intros resp elements Hx Hs Hr Hparse Hfit. exists (map elementOf elements).
  split; [| split; [reflexivity | by rewrite length_map]].
  rewrite (BatchPredictWithCountry_unfold _ _ _ _ _ Hu). simpl. rewrite Hx.
  unfold classify, decoded. rewrite Hs, Hr. simpl.
  unfold json_Unmarshal. rewrite Hparse.
  by rewrite (storePredictions_elements _ Hfit).
Qed.

(** [TestShouldHandleBatchPrediction]: three names give three [name[]]
    values, and the array of three objects gives three predictions. *)
Lemma batch_names_in_order_results_per_element_witness :
  sent (BatchPredict (NewClient [WithUrl "http://127.0.0.1:8080"])
          ["michael"; "matthew"; "jane"] (serving batch200)).2
  = [(DefaultClient,
      "http://127.0.0.1:8080?country_id=&name%5B%5D=michael&name%5B%5D=matthew&name%5B%5D=jane")]
  /\ URL_Query (batchPredictURL (NewClient [WithUrl "http://127.0.0.1:8080"]) localURL
                  ["michael"; "matthew"; "jane"] "") !!! "name[]"
     = ["michael"; "matthew"; "jane"]
  /\ exists predictions : list Prediction,
       (BatchPredict (NewClient [WithUrl "http://127.0.0.1:8080"])
          ["michael"; "matthew"; "jane"] (serving batch200)).1
       = Return (Some predictions, Some {| Limit := ""; Remaining := ""; Reset := "" |}, None)
       /\ predictions
          = [ {| Name := "michael"; Age := 70; Count := 233482; Country := "" |};
              {| Name := "matthew"; Age := 36; Count := 34742; Country := "" |};
              {| Name := "jane"; Age := 36; Count := 35010; Country := "" |} ]
       /\ length predictions = 3%nat.
Proof.
  destruct (batch_names_in_order_results_per_element
              (NewClient [WithUrl "http://127.0.0.1:8080"]) ["michael"; "matthew"; "jane"] ""
              (serving batch200) localURL eq_refl eq_refl)
    as (Hsent & Hnames & _ & Hresult).
  split; [exact Hsent |]. split; [exact Hnames |].
  exact (Hresult batch200
           [JObject [("name", JString "michael"); ("age", JNumber "70");
                     ("count", JNumber "233482")];
            JObject [("name", JString "matthew"); ("age", JNumber "36");
                     ("count", JNumber "34742")];
            JObject [("name", JString "jane"); ("age", JNumber "36");
                     ("count", JNumber "35010")]]
           eq_refl eq_refl eq_refl eq_refl eq_refl).
Defined.

(** The options set the fields they are named after; the handle is the
    zero client unless one is given. *)
Lemma NewClient_with_url_and_key (base key : string) :
  NewClient [WithUrl base; WithApiKey key]
  = {| apiKey := key; baseUrl := base; http := Some zeroClient |}.
Proof. reflexivity. Qed.

(** C6.  Every request of a client goes to its base URL: the URL sent is
    the parsed base URL with nothing but its query replaced.  When the
    client has an API key (a non-empty one), the query holds that key
    under [apikey], after the values the base URL may have there itself,
    and its text has the piece [apikey=<key>] (escaped); when it has
    none, the values of [apikey] are those of the base URL. *)
Theorem requests_go_to_base_url_with_api_key
    (client : Client) (name country : string) (names : list string) (w : World) (u : URL) :
  url_Parse (baseUrl client) = inr u ->
  sent (PredictWithCountry client name country w).2
  = sent w ++ [(DefaultClient, URL_String (predictURL client u name country))]
  /\ sent (BatchPredictWithCountry client names country w).2
     = sent w ++ [(DefaultClient, URL_String (batchPredictURL client u names country))]
  /\ setRawQuery (predictURL client u name country) (RawQuery u) = u
  /\ setRawQuery (batchPredictURL client u names country) (RawQuery u) = u
  /\ (apiKey client <> "" ->
      URL_Query (predictURL client u name country) !!! "apikey"
      = URL_Query u !!! "apikey" ++ [apiKey client]
      /\ URL_Query (batchPredictURL client u names country) !!! "apikey"
         = URL_Query u !!! "apikey" ++ [apiKey client]
      /\ "apikey=" +:+ QueryEscape (apiKey client)
         ∈ pieces "&" (RawQuery (predictURL client u name country))
      /\ "apikey=" +:+ QueryEscape (apiKey client)
         ∈ pieces "&" (RawQuery (batchPredictURL client u names country))
      /\ (URL_Query u !!! "apikey" = [] ->
          Values_Get (URL_Query (predictURL client u name country)) "apikey" = apiKey client
          /\ Values_Get (URL_Query (batchPredictURL client u names country)) "apikey"
             = apiKey client))
  /\ (apiKey client = "" ->
      URL_Query (predictURL client u name country) !!! "apikey" = URL_Query u !!! "apikey"
      /\ URL_Query (batchPredictURL client u names country) !!! "apikey"
         = URL_Query u !!! "apikey").
Proof.
  intros Hu. split; [by apply PredictWithCountry_sent |].
  split; [by apply BatchPredictWithCountry_sent |].
  split; [by destruct u |]. split; [by destruct u |].
  rewrite predictURL_apikey, batchPredictURL_apikey. split.
  - intros Hkey. apply String.eqb_neq in Hkey. rewrite Hkey. do 2 (split; [reflexivity |]).
    split; [| split].
    + unfold predictURL. rewrite Hkey. simpl.
      apply (Encode_has_pair _ "apikey"); add_lookup; set_solver.
    + unfold batchPredictURL. rewrite Hkey. simpl.
      apply (Encode_has_pair _ "apikey"); add_lookup; set_solver.
    + intros Hbase. unfold Values_Get.
      by rewrite predictURL_apikey, batchPredictURL_apikey, Hbase, Hkey.
  - intros ->. simpl. by rewrite app_nil_r.
Qed.

(** [TestShouldOverrideDefaults]: the request goes to the test server and
    carries the key. *)
Lemma requests_go_to_base_url_with_api_key_witness :
  sent (Predict (NewClient [WithUrl "http://127.0.0.1:8080"; WithClient (Some zeroClient);
                            WithApiKey "test-key"]) "michael" unreachable).2
  = [(DefaultClient, "http://127.0.0.1:8080?apikey=test-key&name=michael")]
  /\ Values_Get (URL_Query (predictURL (NewClient [WithUrl "http://127.0.0.1:8080";
                                                  WithClient (Some zeroClient);
                                                  WithApiKey "test-key"])
                              localURL "michael" "")) "apikey" = "test-key"
  /\ Values_Get (URL_Query (predictURL (NewClient [WithUrl "http://127.0.0.1:8080";
                                                  WithClient (Some zeroClient);
                                                  WithApiKey "test-key"])
                              localURL "michael" "")) "name" = "michael".
Proof.
  destruct (requests_go_to_base_url_with_api_key
              (NewClient [WithUrl "http://127.0.0.1:8080"; WithClient (Some zeroClient);
                          WithApiKey "test-key"]) "michael" "" [] unreachable localURL eq_refl)
    as (Hsent & _ & _ & _ & Hkey & _).
  split; [exact Hsent |].
  split; [| by vm_compute].
  exact (proj1 (proj2 (proj2 (proj2 (proj2 (Hkey ltac:(discriminate))))) eq_refl)).
Defined.

(** ** Further properties of the client *)


(** X2.  Without options the client has the public base URL, no key and a
    fresh handle; an option given last sets its field and leaves the two
    other fields as the options before it made them. *)
Theorem NewClient_defaults_and_options
    (opts : list ClientOption) (base key : string) (h : option http_Client) :
  NewClient [] = {| apiKey := ""; baseUrl := "https://api.agify.io"; http := Some zeroClient |}
  /\ NewClient (opts ++ [WithUrl base])
     = {| apiKey := apiKey (NewClient opts); baseUrl := base; http := http (NewClient opts) |}
  /\ NewClient (opts ++ [WithApiKey key])
     = {| apiKey := key; baseUrl := baseUrl (NewClient opts); http := http (NewClient opts) |}
  /\ NewClient (opts ++ [WithClient h])
     = {| apiKey := apiKey (NewClient opts); baseUrl := baseUrl (NewClient opts); http := h |}.
Proof. unfold NewClient. rewrite !foldl_app. repeat split. Qed.

(** X3.  The single-name request carries the name as it was given, after the
    [name] values the base URL may have itself; an empty name is sent like
    any other. *)
Theorem name_is_sent_as_given
    (client : Client) (name country : string) (w : World) (u : URL) :
  url_Parse (baseUrl client) = inr u ->
  sent (PredictWithCountry client name country w).2
  = sent w ++ [(DefaultClient, URL_String (predictURL client u name country))]
  /\ URL_Query (predictURL client u name country) !!! "name" = URL_Query u !!! "name" ++ [name]
  /\ "name=" +:+ QueryEscape name ∈ pieces "&" (RawQuery (predictURL client u name country)).
Proof.
  intros Hu. split; [by apply PredictWithCountry_sent |].
  split; [apply predictURL_name |].
  unfold predictURL.
  destruct (String.eqb country ""), (String.eqb (apiKey client) ""); simpl;
    apply (Encode_has_pair _ "name"); add_lookup; set_solver.
Qed.

Lemma name_is_sent_as_given_witness :
  sent (PredictWithCountry (NewClient []) "" "" unreachable).2
  = [(DefaultClient, "https://api.agify.io?name=")]
  /\ URL_Query (predictURL (NewClient []) agifyURL "" "") !!! "name" = [""]
  /\ "name=" ∈ pieces "&" (RawQuery (predictURL (NewClient []) agifyURL "" "")).
Proof.
  exact (name_is_sent_as_given (NewClient []) "" "" unreachable agifyURL eq_refl).
Defined.

(** X4.  The first version of the client ([client.go]) does what the current
    one does, the key being a pointer there: its methods agree with those
    of the corresponding client, unless the key points to the empty
    string. *)
Theorem first_version_agrees
    (client : V0.Client) (url name country : string) (names : list string) (w : World) :
  V0.apiKey client <> Some "" ->
  V0.get client url w = get (ofV0 client) url w
  /\ V0.PredictWithCountry client name country w
     = PredictWithCountry (ofV0 client) name country w
  /\ V0.BatchPredictWithCountry client names country w
     = BatchPredictWithCountry (ofV0 client) names country w.
Proof.
  intros Hkey. split; [reflexivity |].
  destruct client as [[key |] base h]; simpl in *.
  - assert (String.eqb key "" = false) as Hne by (apply String.eqb_neq; congruence).
    unfold V0.PredictWithCountry, PredictWithCountry,
      V0.BatchPredictWithCountry, BatchPredictWithCountry. simpl. rewrite Hne. done.
  - done.
Qed.

Lemma first_version_agrees_witness :
  V0.PredictWithCountry (V0.NewClient (Some "test-key") "http://127.0.0.1:8080")
    "michael" "US" (serving michael200)
  = PredictWithCountry (NewClient [WithUrl "http://127.0.0.1:8080"; WithApiKey "test-key"])
      "michael" "US" (serving michael200).
Proof.
  exact (proj1 (proj2 (first_version_agrees
                         (V0.NewClient (Some "test-key") "http://127.0.0.1:8080")
                         "" "michael" "US" [] (serving michael200) ltac:(discriminate)))).
Defined.

(** X5.  The ways a single-name call fails once the base URL has parsed: no
    response (nil rate limit, the transport's error); status 200 and a
    body that cannot be read to its end (the error of the read); status
    200 and a body that is not JSON (a syntax error).  The rate limit of
    the headers is returned in the last two. *)
Theorem predict_failures
    (client : Client) (name country : string) (w : World) (u : URL) :
  url_Parse (baseUrl client) = inr u ->
  (forall err : error,
      exchange w DefaultClient (URL_String (predictURL client u name country)) = inl err ->
      (PredictWithCountry client name country w).1 = Return (None, None, Some err))
  /\ (forall (resp : Response) (err : error),
        exchange w DefaultClient (URL_String (predictURL client u name country)) = inr resp ->
        StatusCode resp = StatusOK ->
        readError (Body resp) = Some err ->
        (PredictWithCountry client name country w).1
        = Return (None, Some (headerRateLimit resp), Some err))
  /\ (forall resp : Response,
        exchange w DefaultClient (URL_String (predictURL client u name country)) = inr resp ->
        StatusCode resp = StatusOK ->
        readError (Body resp) = None ->
        json_parse (content (Body resp)) = None ->
        (PredictWithCountry client name country w).1
        = Return (None, Some (headerRateLimit resp), Some json_SyntaxError)).
Proof.
  intros Hu. rewrite (PredictWithCountry_unfold _ _ _ _ _ Hu). simpl. repeat split.
  - by intros err ->.
  - intros resp err -> Hs Hr. unfold classify. by rewrite Hs, Hr.
  - intros resp -> Hs Hr Hparse. unfold classify, decoded, json_Unmarshal.
    rewrite Hs, Hr. simpl. by rewrite Hparse.
Qed.

Lemma predict_failures_witness :
  (Predict (NewClient []) "michael" unreachable).1
  = Return (None, None, Some (net_OpError "connection refused")).
Proof.
  exact (proj1 (predict_failures (NewClient []) "michael" "" unreachable agifyURL eq_refl)
           (net_OpError "connection refused") eq_refl).
Defined.

(** ** Options in any number and order *)

Lemma NewClient_snoc (opts : list ClientOption) (opt : ClientOption) :
  NewClient (opts ++ [opt])
  = let d := opt {| defaults.apiKey := apiKey (NewClient opts);
                    defaults.baseUrl := baseUrl (NewClient opts);
                    defaults.http := http (NewClient opts) |} in
    {| apiKey := defaults.apiKey d; baseUrl := defaults.baseUrl d;
       http := defaults.http d |}.
Proof.
  unfold NewClient. rewrite foldl_app. simpl.
  by destruct (foldl _ _ opts).
Qed.

(** X6.  Whatever options are given, in whatever number and order, each
    field of the client is what the last option for that field set, and
    the default (the public URL, no key, a fresh handle) when no option
    set it. *)
Theorem NewClient_last_setting_wins (settings : list setting) :
  baseUrl (NewClient (map optionOf settings))
  = default "https://api.agify.io" (last (omap urlSet settings))
  /\ apiKey (NewClient (map optionOf settings))
     = default "" (last (omap keySet settings))
  /\ http (NewClient (map optionOf settings))
     = default (Some zeroClient) (last (omap clientSet settings)).
Proof.
  induction settings as [| s settings IH] using rev_ind; [done |].
  destruct IH as (IHu & IHk & IHh).
  rewrite map_app, !omap_app. change (map optionOf [s]) with [optionOf s].
  rewrite NewClient_snoc.
  destruct s; simpl; rewrite ?app_nil_r, ?last_snoc; simpl; auto.
Qed.

(** ** The whole query of a request *)






(** ** The text of the query *)

Lemma URL_Query_empty (u : URL) : RawQuery u = "" -> URL_Query u = ∅.
Proof. intros H. unfold URL_Query. by rewrite H. Qed.

Lemma add_names_insert (key x : string) (names : list string) (m : Values) :
  foldl (fun values name => Values_Add values key name) m (x :: names)
  = <[key := m !!! key ++ x :: names]> m.
Proof.
  revert m x. induction names as [| y names IH]; intros m x; [reflexivity |].
  change (foldl (fun values name => Values_Add values key name) m (x :: y :: names))
    with (foldl (fun values name => Values_Add values key name)
            (Values_Add m key x) (y :: names)).
  rewrite IH. unfold Values_Add.
  by rewrite lookup_total_insert_eq, insert_insert_eq, <- app_assoc.
Qed.

(** X8.  For a base URL without a query, the query text of a request is
    known byte for byte: the pairs come in the order of their keys, so
    [apikey] (when the client has a key) comes first, then [country_id]
    (always in a batch request, for a non-empty country in a single-name
    one), then [name], or one [name%5B%5D] pair for each name in the order
    given; keys and values are escaped and joined by [&]. *)
Theorem query_text_without_base_query
    (client : Client) (name country : string) (names : list string) (u : URL) :
  RawQuery u = "" ->
  RawQuery (predictURL client u name country)
  = String.concat "&"
      ((if String.eqb (apiKey client) "" then []
        else ["apikey=" +:+ QueryEscape (apiKey client)])
       ++ (if String.eqb country "" then [] else ["country_id=" +:+ QueryEscape country])
       ++ ["name=" +:+ QueryEscape name])
  /\ RawQuery (batchPredictURL client u names country)
     = String.concat "&"
         ((if String.eqb (apiKey client) "" then []
           else ["apikey=" +:+ QueryEscape (apiKey client)])
          ++ ["country_id=" +:+ QueryEscape country]
          ++ map (fun n => "name%5B%5D=" +:+ QueryEscape n) names).
Proof.
  intros Hq. unfold predictURL, batchPredictURL. rewrite (URL_Query_empty _ Hq). split.
  - destruct (String.eqb country ""), (String.eqb (apiKey client) ""); vm_compute;
      reflexivity.
  - destruct names as [| n names].
    + destruct (String.eqb (apiKey client) ""); vm_compute; reflexivity.
    + rewrite add_names_insert. unfold Values_Encode, Values_Add.
      destruct (String.eqb (apiKey client) ""); simpl.
      * assert (sortedKeys (<["name[]" := <["country_id" := ∅ !!! "country_id" ++ [country]]> ∅
                                           !!! "name[]" ++ n :: names]>
                              (<["country_id" := ∅ !!! "country_id" ++ [country]]> ∅))
                = ["country_id"; "name[]"]) as -> by (vm_compute; reflexivity).
        simpl. rewrite app_nil_r.
        repeat first [ rewrite lookup_total_insert_eq | rewrite lookup_total_empty
                     | rewrite lookup_total_insert_ne by done ].
        reflexivity.
      * match goal with
        | |- context [sortedKeys ?v] =>
            assert (sortedKeys v = ["apikey"; "country_id"; "name[]"]) as ->
              by (vm_compute; reflexivity)
        end.
        simpl. rewrite app_nil_r.
        repeat first [ rewrite lookup_total_insert_eq | rewrite lookup_total_empty
                     | rewrite lookup_total_insert_ne by done ].
        reflexivity.
Qed.

Lemma query_text_without_base_query_witness :
  RawQuery (predictURL (NewClient [WithApiKey "k 1"]) agifyURL "zoë" "US")
  = "apikey=k+1&country_id=US&name=zo%C3%AB"
  /\ RawQuery (batchPredictURL (NewClient []) agifyURL ["a b"; "c&d"] "")
     = "country_id=&name%5B%5D=a+b&name%5B%5D=c%26d".
Proof.
  exact (conj
           (proj1 (query_text_without_base_query (NewClient [WithApiKey "k 1"]) "zoë" "US" []
                     agifyURL eq_refl))
           (proj2 (query_text_without_base_query (NewClient []) "" "" ["a b"; "c&d"]
                     agifyURL eq_refl))).
Defined.


(** ** The first version, once the base URL has parsed *)

Lemma V0_PredictWithCountry_unfold (client : V0.Client) (name country : string) (w : World)
    (u : URL) :
  url_Parse (V0.baseUrl client) = inr u ->
  V0.PredictWithCountry client name country w =
  (Return match exchange w DefaultClient (URL_String (V0_predictURL client u name country)) with
          | inl err => (None, None, Some err)
          | inr resp => decoded storePrediction zeroPrediction (classify resp)
          end,
   afterRequest w DefaultClient (URL_String (V0_predictURL client u name country))).
Proof.
  intros Hu. unfold V0.PredictWithCountry. rewrite Hu. simpl.
  unfold mbind, M_bind at 1. simpl. unfold mbind, M_bind.
  rewrite V0_get_unfold, get_unfold.
  destruct (exchange w DefaultClient _) as [err | resp]; [reflexivity |].
  unfold decoded.
  destruct (classify resp) as [[body rateLimit] [err |]]; [reflexivity |].
  destruct (json_Unmarshal storePrediction (bytes body) zeroPrediction) as [p [err |]];
    reflexivity.
Qed.

Lemma V0_BatchPredictWithCountry_unfold (client : V0.Client) (names : list string)
    (country : string) (w : World) (u : URL) :
  url_Parse (V0.baseUrl client) = inr u ->
  V0.BatchPredictWithCountry client names country w =
  (Return match exchange w DefaultClient
                  (URL_String (V0_batchPredictURL client u names country)) with
          | inl err => (None, None, Some err)
          | inr resp => decoded storePredictions [] (classify resp)
          end,
   afterRequest w DefaultClient (URL_String (V0_batchPredictURL client u names country))).
Proof.
  intros Hu. unfold V0.BatchPredictWithCountry. rewrite Hu. simpl.
  unfold mbind, M_bind at 1. simpl. unfold mbind, M_bind.
  rewrite V0_get_unfold, get_unfold.
  destruct (exchange w DefaultClient _) as [err | resp]; [reflexivity |].
  unfold decoded.
  destruct (classify resp) as [[body rateLimit] [err |]]; [reflexivity |].
  destruct (json_Unmarshal storePredictions (bytes body) []) as [p [err |]];
    reflexivity.
Qed.

Lemma V0_panics (client : V0.Client) (name country : string) (names : list string)
    (w : World) (err : error) :
  url_Parse (V0.baseUrl client) = inl err ->
  V0.PredictWithCountry client name country w = (Panic nilDereference, w)
  /\ V0.BatchPredictWithCountry client names country w = (Panic nilDereference, w).
Proof.
  intros Hu. unfold V0.PredictWithCountry, V0.BatchPredictWithCountry.
  rewrite Hu. by split.
Qed.

(** ** When a call panics *)


Lemma url_Parse_control_byte (rawURL : string) :
  stringContainsCTLByte (strings_Cut "#" rawURL).1.1 = true ->
  exists err, url_Parse rawURL = inl err.
Proof.
  unfold url_Parse. destruct (strings_Cut "#" rawURL) as [[u frag] found]. simpl.
  intros Hctl. unfold parse. rewrite Hctl. eauto.
Qed.

Lemma url_Parse_leading_colon (rest : string) :
  exists err, url_Parse (String ":" rest) = inl err.
Proof.
  unfold url_Parse. simpl.
  destruct (strings_Cut "#" rest) as [[u frag] found]. unfold parse.
  destruct (stringContainsCTLByte (String ":" u)); [eauto |].
  simpl. eauto.
Qed.

Lemma surelyRefused_fails (base : string) :
  surelyRefused base = true -> exists err, url_Parse base = inl err.
Proof.
  unfold surelyRefused. intros [Hcolon | Hctl]%orb_true_iff.
  - destruct base as [| c rest]; [discriminate |].
    apply Ascii.eqb_eq in Hcolon. subst c. apply url_Parse_leading_colon.
  - by apply url_Parse_control_byte.
Qed.

(** X10.  A base URL that starts with a colon, or that has an ASCII
    control byte before its first [#] (a line feed left at its end, for
    one), makes every call panic, in both versions, and nothing is sent. *)
Theorem control_byte_or_leading_colon_panics
    (client : Client) (old : V0.Client) (name country : string) (names : list string)
    (w : World) :
  surelyRefused (baseUrl client) = true ->
  surelyRefused (V0.baseUrl old) = true ->
  PredictWithCountry client name country w = (Panic nilDereference, w)
  /\ BatchPredictWithCountry client names country w = (Panic nilDereference, w)
  /\ V0.PredictWithCountry old name country w = (Panic nilDereference, w)
  /\ V0.BatchPredictWithCountry old names country w = (Panic nilDereference, w).
Proof.
  intros [err1 H1]%surelyRefused_fails [err2 H2]%surelyRefused_fails.
  rewrite (PredictWithCountry_panics _ _ _ _ _ H1),
    (BatchPredictWithCountry_panics _ _ _ _ _ H1).
  destruct (V0_panics old name country names w err2 H2) as [-> ->]. done.
Qed.

(** The public URL with a line feed after it. *)
Lemma control_byte_or_leading_colon_panics_witness :
  Predict (NewClient [WithUrl ("https://api.agify.io" +:+ lineFeed)]) "michael" unreachable
  = (Panic nilDereference, unreachable)
  /\ V0.Predict (V0.NewClient None ("https://api.agify.io" +:+ lineFeed)) "michael" unreachable
     = (Panic nilDereference, unreachable).
Proof.
  destruct (control_byte_or_leading_colon_panics
              (NewClient [WithUrl ("https://api.agify.io" +:+ lineFeed)])
              (V0.NewClient None ("https://api.agify.io" +:+ lineFeed))
              "michael" "" [] unreachable eq_refl eq_refl)
    as (H1 & _ & H2 & _).
  exact (conj H1 H2).
Defined.

(** ** The key of the first version *)

Lemma V0_predictURL_apikey (old : V0.Client) (u : URL) (name country : string) :
  URL_Query (V0_predictURL old u name country) !!! "apikey"
  = URL_Query u !!! "apikey"
    ++ match V0.apiKey old with Some key => [key] | None => [] end.
Proof.
  unfold V0_predictURL. rewrite Query_of_encoded.
  destruct (String.eqb country ""), (V0.apiKey old); simpl; add_lookup;
    by rewrite ?app_nil_r.
Qed.

Lemma V0_batchPredictURL_apikey (old : V0.Client) (u : URL) (names : list string)
    (country : string) :
  URL_Query (V0_batchPredictURL old u names country) !!! "apikey"
  = URL_Query u !!! "apikey"
    ++ match V0.apiKey old with Some key => [key] | None => [] end.
Proof.
  unfold V0_batchPredictURL. rewrite Query_of_encoded.
  destruct (V0.apiKey old); simpl; add_lookup; by rewrite ?app_nil_r.
Qed.

(** X11.  In the first version the key is sent whenever its pointer is
    not nil, an empty key included (as the piece [apikey=]), and never
    when it is nil; the current version, given the same key as a string,
    differs in leaving an empty key out. *)
Theorem first_version_sends_any_key
    (old : V0.Client) (name country : string) (names : list string) (w : World) (u : URL) :
  url_Parse (V0.baseUrl old) = inr u ->
  sent (V0.PredictWithCountry old name country w).2
  = sent w ++ [(DefaultClient, URL_String (V0_predictURL old u name country))]
  /\ sent (V0.BatchPredictWithCountry old names country w).2
     = sent w ++ [(DefaultClient, URL_String (V0_batchPredictURL old u names country))]
  /\ URL_Query (V0_predictURL old u name country) !!! "apikey"
     = URL_Query u !!! "apikey"
       ++ match V0.apiKey old with Some key => [key] | None => [] end
  /\ URL_Query (V0_batchPredictURL old u names country) !!! "apikey"
     = URL_Query u !!! "apikey"
       ++ match V0.apiKey old with Some key => [key] | None => [] end
  /\ (forall key : string,
         V0.apiKey old = Some key ->
         "apikey=" +:+ QueryEscape key
         ∈ pieces "&" (RawQuery (V0_predictURL old u name country))
         /\ "apikey=" +:+ QueryEscape key
            ∈ pieces "&" (RawQuery (V0_batchPredictURL old u names country)))
  /\ URL_Query (predictURL (ofV0 old) u name country) !!! "apikey"
     = URL_Query u !!! "apikey"
       ++ match V0.apiKey old with
          | Some key => if String.eqb key "" then [] else [key]
          | None => []
          end.
Proof.
  intros Hu.
  split; [by rewrite (V0_PredictWithCountry_unfold _ _ _ _ _ Hu) |].
  split; [by rewrite (V0_BatchPredictWithCountry_unfold _ _ _ _ _ Hu) |].
  split; [apply V0_predictURL_apikey |]. split; [apply V0_batchPredictURL_apikey |].
  split.
  - intros key Hkey. unfold V0_predictURL, V0_batchPredictURL. rewrite Hkey. simpl.
    split; apply (Encode_has_pair _ "apikey"); add_lookup; set_solver.
  - rewrite predictURL_apikey. destruct old as [[key |] base h]; reflexivity.
Qed.

(** A pointer to the empty string: the first version sends [apikey=], the
    current one sends no key. *)
Lemma first_version_sends_any_key_witness :
  sent (V0.Predict (V0.NewClient (Some "") "https://api.agify.io") "michael" unreachable).2
  = [(DefaultClient, "https://api.agify.io?apikey=&name=michael")]
  /\ sent (Predict (NewClient [WithApiKey ""]) "michael" unreachable).2
     = [(DefaultClient, "https://api.agify.io?name=michael")].
Proof.
  split; [| reflexivity].
  exact (proj1 (first_version_sends_any_key
                  (V0.NewClient (Some "") "https://api.agify.io") "michael" "" []
                  unreachable agifyURL eq_refl)).
Defined.

(** ** Values that do not fit *)

Lemma storeString_saved (field : string) (v : Value) (old : string) (e : error) :
  (storeString field v old (Some e)).2 = Some e.
Proof. by destruct v. Qed.

Lemma storeInt_saved (field : string) (v : Value) (old : Z) (e : error) :
  (storeInt field v old (Some e)).2 = Some e.
Proof. destruct v as [| | literal | | |]; try done. simpl. by destruct (parseInt literal). Qed.

Lemma storeString_misfit (field : string) (v : Value) (old : string) :
  fitsString v = false -> isTypeError (storeString field v old None).2 = true.
Proof. by destruct v. Qed.

Lemma storeInt_misfit (field : string) (v : Value) (old : Z) :
  fitsInt v = false -> isTypeError (storeInt field v old None).2 = true.
Proof.
  destruct v as [| | literal | | |]; try done. simpl.
  destruct (parseInt literal) eqn:Hp; [| done].
  intros Hfit. apply bool_decide_eq_false in Hfit. destruct Hfit. eauto.
Qed.

Lemma storePredictionField_saved (p : Prediction) (e : error) (m : string * Value) :
  (storePredictionField (p, Some e) m).2 = Some e.
Proof.
  destruct m as [key v]. unfold storePredictionField.
  repeat match goal with |- context [if ?b then _ else _] => destruct b end; try done.
  - pose proof (storeString_saved "name" v (Name p) e).
    by destruct (storeString "name" v (Name p) (Some e)).
  - pose proof (storeInt_saved "age" v (Age p) e).
    by destruct (storeInt "age" v (Age p) (Some e)).
  - pose proof (storeInt_saved "count" v (Count p) e).
    by destruct (storeInt "count" v (Count p) (Some e)).
  - pose proof (storeString_saved "country_id" v (Country p) e).
    by destruct (storeString "country_id" v (Country p) (Some e)).
Qed.

Lemma storePredictionField_misfit (p : Prediction) (m : string * Value) :
  fitsPrediction [m] = false ->
  isTypeError (storePredictionField (p, None) m).2 = true.
Proof.
  destruct m as [key v]. unfold fitsPrediction, storePredictionField. simpl.
  rewrite andb_true_r.
  destruct (foldEq key "name") eqn:Hname.
  { simpl. intros Hfit. pose proof (storeString_misfit "name" v (Name p) Hfit).
    by destruct (storeString "name" v (Name p) None). }
  destruct (foldEq key "country_id") eqn:Hcountry.
  { rewrite (foldEq_tags _ _ "age" Hcountry), (foldEq_tags _ _ "count" Hcountry)
      by discriminate. simpl.
    intros Hfit. pose proof (storeString_misfit "country_id" v (Country p) Hfit).
    by destruct (storeString "country_id" v (Country p) None). }
  simpl. destruct (foldEq key "age") eqn:Hage.
  { simpl. intros Hfit. pose proof (storeInt_misfit "age" v (Age p) Hfit).
    by destruct (storeInt "age" v (Age p) None). }
  destruct (foldEq key "count") eqn:Hcount; [| done].
  simpl. intros Hfit. pose proof (storeInt_misfit "count" v (Count p) Hfit).
  by destruct (storeInt "count" v (Count p) None).
Qed.

Lemma storePrediction_fold_saved (members : list (string * Value)) (p : Prediction)
    (e : error) :
  (foldl storePredictionField (p, Some e) members).2 = Some e.
Proof.
  revert p. induction members as [| m members IH]; intros p; [done |].
  cbn [foldl]. pose proof (storePredictionField_saved p e m) as Hm.
  destruct (storePredictionField (p, Some e) m) as [p' s]. simpl in Hm. subst s.
  apply IH.
Qed.

Lemma fitsPrediction_cons (m : string * Value) (members : list (string * Value)) :
  fitsPrediction (m :: members) = fitsPrediction [m] && fitsPrediction members.
Proof. unfold fitsPrediction. cbn [forallb]. by rewrite andb_true_r. Qed.

(** An object with a member that does not fit leaves a type error. *)
Lemma storePrediction_fold_misfit (members : list (string * Value)) (p : Prediction) :
  fitsPrediction members = false ->
  isTypeError (foldl storePredictionField (p, None) members).2 = true.
Proof.
  revert p. induction members as [| m members IH]; intros p; [done |].
  rewrite fitsPrediction_cons.
  - destruct (fitsPrediction [m]) eqn:Hm.
    + cbn [andb foldl]. rewrite (storePredictionField_fits _ _ _ Hm). intros Hfit. by apply IH.
    + intros _. cbn [foldl].
      pose proof (storePredictionField_misfit p m Hm) as Herr.
      destruct (storePredictionField (p, None) m) as [p' [e |]]; [| done].
      rewrite storePrediction_fold_saved. exact Herr.
Qed.

Lemma storePrediction_saved (v : Value) (p : Prediction) (e : error) :
  (storePrediction v p (Some e)).2 = Some e.
Proof. destruct v; try done. apply storePrediction_fold_saved. Qed.

Lemma storePrediction_misfit (v : Value) (p : Prediction) :
  fitsElement v = false -> isTypeError (storePrediction v p None).2 = true.
Proof. destruct v; try done. apply storePrediction_fold_misfit. Qed.

Lemma storePredictions_fold_saved (elements : list Value) (acc : list Prediction) (e : error) :
  (foldl (fun st e =>
            let '(p, saved) := storePrediction e zeroPrediction st.2 in
            (st.1 ++ [p], saved)) (acc, Some e) elements).2 = Some e.
Proof.
  revert acc. induction elements as [| v elements IH]; intros acc; [done |].
  cbn [foldl]. cbn [fst snd].
  pose proof (storePrediction_saved v zeroPrediction e) as Hv.
  destruct (storePrediction v zeroPrediction (Some e)) as [p s]. simpl in Hv. subst s.
  apply IH.
Qed.

(** An array with an element that does not fit leaves a type error. *)
Lemma storePredictions_fold_misfit (elements : list Value) (acc : list Prediction) :
  forallb fitsElement elements = false ->
  isTypeError (foldl (fun st e =>
                        let '(p, saved) := storePrediction e zeroPrediction st.2 in
                        (st.1 ++ [p], saved)) (acc, None) elements).2 = true.
Proof.
  revert acc. induction elements as [| v elements IH]; intros acc; [done |].
  cbn [forallb foldl fst snd]. destruct (fitsElement v) eqn:Hv.
  - rewrite (storePrediction_element _ _ Hv). cbn [andb]. apply IH.
  - intros _. pose proof (storePrediction_misfit v zeroPrediction Hv) as Herr.
    destruct (storePrediction v zeroPrediction None) as [p [e |]]; [| done].
    rewrite storePredictions_fold_saved. exact Herr.
Qed.

(** ** What a body with status 200 is read as *)

(** X12.  The single-name call on a response with status 200 whose body
    is read to its end and is JSON.  An object whose members fit the
    fields they name gives the prediction of its members and a nil error;
    an object with a member that does not fit gives a nil prediction and
    a type error; [null] gives the zero prediction, not nil, and a nil
    error; every other value gives a nil prediction and the type error
    that names its kind.  The rate limit is that of the headers in each
    case. *)
Theorem single_answer_by_json_value
    (client : Client) (name country : string) (w : World) (u : URL) (resp : Response)
    (v : Value) :
  url_Parse (baseUrl client) = inr u ->
  exchange w DefaultClient (URL_String (predictURL client u name country)) = inr resp ->
  StatusCode resp = StatusOK ->
  readError (Body resp) = None ->
  json_parse (content (Body resp)) = Some v ->
  exists (result : option Prediction) (err : option error),
    (PredictWithCountry client name country w).1
    = Return (result, Some (headerRateLimit resp), err)
    /\ match v with
       | JObject members =>
           if fitsPrediction members
           then result = Some (predictionOf members) /\ err = None
           else result = None /\ isTypeError err = true
       | JNull => result = Some zeroPrediction /\ err = None
       | _ => result = None /\ err = Some (json_UnmarshalTypeError (describeKind v) "")
       end.
Proof.
  intros Hu Hresp Hstatus Hread Hparse.
  rewrite (PredictWithCountry_unfold _ _ _ _ _ Hu), Hresp. cbn [fst].
  unfold classify. rewrite Hstatus, Z.eqb_refl, Hread. unfold decoded, json_Unmarshal.
  change (bytes (Some (content (Body resp)))) with (content (Body resp)). rewrite Hparse.
  destruct v as [| b | literal | s | elements | members];
    try (eexists _, _; split; [reflexivity | by split]).
  destruct (fitsPrediction members) eqn:Hfit.
  - cbn [storePrediction]. rewrite (storePrediction_members _ Hfit).
    eexists _, _. split; [reflexivity | by split].
  - pose proof (storePrediction_fold_misfit members zeroPrediction Hfit) as Herr.
    cbn [storePrediction].
    destruct (foldl storePredictionField (zeroPrediction, None) members) as [p [e |]];
      [| done].
    eexists _, _. split; [reflexivity | by split].
Qed.

Lemma single_answer_by_json_value_witness :
  (exists (result : option Prediction) (err : option error),
      (Predict (NewClient []) "michael"
         (serving (respond 200 ∅ (jsonText "{'name':'michael','age':'70'}")))).1
      = Return (result, Some {| Limit := ""; Remaining := ""; Reset := "" |}, err)
      /\ result = None /\ isTypeError err = true)
  /\ (exists (result : option Prediction) (err : option error),
      (Predict (NewClient []) "michael" (serving (respond 200 ∅ "null"))).1
      = Return (result, Some {| Limit := ""; Remaining := ""; Reset := "" |}, err)
      /\ result = Some zeroPrediction /\ err = None).
Proof.
  split.
  - exact (single_answer_by_json_value (NewClient []) "michael" ""
             (serving (respond 200 ∅ (jsonText "{'name':'michael','age':'70'}")))
             agifyURL (respond 200 ∅ (jsonText "{'name':'michael','age':'70'}"))
             (JObject [("name", JString "michael"); ("age", JString "70")])
             eq_refl eq_refl eq_refl eq_refl eq_refl).
  - exact (single_answer_by_json_value (NewClient []) "michael" ""
             (serving (respond 200 ∅ "null"))
             agifyURL (respond 200 ∅ "null") JNull
             eq_refl eq_refl eq_refl eq_refl eq_refl).
Defined.

(** X13.  The batch call on a response with status 200 whose body is read
    to its end and is JSON.  An array whose elements all fit gives one
    prediction per element and a nil error; an array with one element
    that does not fit gives a nil result, not the predictions of the
    other elements, and a type error; [null] gives an empty result, not
    nil, and a nil error; every other value gives a nil result and the
    type error that names its kind. *)
Theorem batch_answer_by_json_value
    (client : Client) (names : list string) (country : string) (w : World) (u : URL)
    (resp : Response) (v : Value) :
  url_Parse (baseUrl client) = inr u ->
  exchange w DefaultClient (URL_String (batchPredictURL client u names country)) = inr resp ->
  StatusCode resp = StatusOK ->
  readError (Body resp) = None ->
  json_parse (content (Body resp)) = Some v ->
  exists (result : option (list Prediction)) (err : option error),
    (BatchPredictWithCountry client names country w).1
    = Return (result, Some (headerRateLimit resp), err)
    /\ match v with
       | JArray elements =>
           if forallb fitsElement elements
           then result = Some (map elementOf elements) /\ err = None
           else result = None /\ isTypeError err = true
       | JNull => result = Some [] /\ err = None
       | _ => result = None /\ err = Some (json_UnmarshalTypeError (describeKind v) "")
       end.
Proof.
  intros Hu Hresp Hstatus Hread Hparse.
  rewrite (BatchPredictWithCountry_unfold _ _ _ _ _ Hu), Hresp. cbn [fst].
  unfold classify. rewrite Hstatus, Z.eqb_refl, Hread. unfold decoded, json_Unmarshal.
  change (bytes (Some (content (Body resp)))) with (content (Body resp)). rewrite Hparse.
  destruct v as [| b | literal | s | elements | members];
    try (eexists _, _; split; [reflexivity | by split]).
  destruct (forallb fitsElement elements) eqn:Hfit.
  - rewrite (storePredictions_elements _ Hfit).
    eexists _, _. split; [reflexivity | by split].
  - pose proof (storePredictions_fold_misfit elements [] Hfit) as Herr.
    cbn [storePredictions].
    destruct (foldl _ ([], None) elements) as [ps [e |]]; [| done].
    eexists _, _. split; [reflexivity | by split].
Qed.

Lemma batch_answer_by_json_value_witness :
  (exists (result : option (list Prediction)) (err : option error),
      (BatchPredict (NewClient []) ["michael"; "peter"]
         (serving (respond 200 ∅ (jsonText "[{'name':'michael','age':70},{'name':'peter','age':6.5}]")))).1
      = Return (result, Some {| Limit := ""; Remaining := ""; Reset := "" |}, err)
      /\ result = None /\ isTypeError err = true)
  /\ (exists (result : option (list Prediction)) (err : option error),
      (BatchPredict (NewClient []) ["michael"; "peter"]
         (serving (respond 200 ∅ (jsonText "{'name':'michael','age':70}")))).1
      = Return (result, Some {| Limit := ""; Remaining := ""; Reset := "" |}, err)
      /\ result = None /\ err = Some (json_UnmarshalTypeError "object" "")).
Proof.
  split.
  - exact (batch_answer_by_json_value (NewClient []) ["michael"; "peter"] ""
             (serving (respond 200 ∅ (jsonText "[{'name':'michael','age':70},{'name':'peter','age':6.5}]")))
             agifyURL
             (respond 200 ∅ (jsonText "[{'name':'michael','age':70},{'name':'peter','age':6.5}]"))
             (JArray [JObject [("name", JString "michael"); ("age", JNumber "70")];
                      JObject [("name", JString "peter"); ("age", JNumber "6.5")]])
             eq_refl eq_refl eq_refl eq_refl eq_refl).
  - exact (batch_answer_by_json_value (NewClient []) ["michael"; "peter"] ""
             (serving (respond 200 ∅ (jsonText "{'name':'michael','age':70}")))
             agifyURL (respond 200 ∅ (jsonText "{'name':'michael','age':70}"))
             (JObject [("name", JString "michael"); ("age", JNumber "70")])
             eq_refl eq_refl eq_refl eq_refl eq_refl).
Defined.

(** ** Keys of the objects *)

Lemma toLowerByte_idem (c : ascii) : toLowerByte (toLowerByte c) = toLowerByte c.
Proof. by destruct c as [[] [] [] [] [] [] [] []]. Qed.

Lemma mapBytes_toLowerByte_idem (s : string) :
  mapBytes toLowerByte (mapBytes toLowerByte s) = mapBytes toLowerByte s.
Proof. induction s as [| c s IH]; [done |]. simpl. by rewrite toLowerByte_idem, IH. Qed.

Lemma foldEq_lower (key tag : string) :
  foldEq (mapBytes toLowerByte key) tag = foldEq key tag.
Proof. unfold foldEq. by rewrite mapBytes_toLowerByte_idem. Qed.

Lemma storePredictionField_lower (st : Prediction * option error) (key : string) (v : Value) :
  storePredictionField st (mapBytes toLowerByte key, v) = storePredictionField st (key, v).
Proof. destruct st as [p saved]. unfold storePredictionField. by rewrite !foldEq_lower. Qed.

Lemma storePredictionField_skip (st : Prediction * option error) (m : string * Value) :
  namesField m.1 = false -> storePredictionField st m = st.
Proof.
  destruct st as [p saved], m as [key v]. unfold namesField, storePredictionField. simpl.
  intros Hkey. apply orb_false_iff in Hkey as [Hkey Hcountry].
  apply orb_false_iff in Hkey as [Hkey Hcount]. apply orb_false_iff in Hkey as [Hname Hage].
  by rewrite Hname, Hage, Hcount, Hcountry.
Qed.

(** Members that name no field, and the case of the keys, make no
    difference to what is stored. *)
Lemma storePrediction_relevant (members : list (string * Value))
    (st : Prediction * option error) :
  foldl storePredictionField st members = foldl storePredictionField st (relevant members).
Proof.
  revert st. induction members as [| m members IH]; intros st; [done |].
  unfold relevant. cbn [foldl List.filter]. destruct (namesField m.1) eqn:Hkey.
  - cbn [map foldl]. destruct m as [key v]. cbn [fst snd].
    rewrite storePredictionField_lower. apply IH.
  - rewrite (storePredictionField_skip _ _ Hkey). apply IH.
Qed.

Lemma storePrediction_seenBy (v : Value) (p : Prediction) (saved : option error) :
  storePrediction v p saved = storePrediction (seenBy v) p saved.
Proof. destruct v; try done. apply storePrediction_relevant. Qed.

Lemma storePredictions_seenByBatch (v : Value) (ps : list Prediction) (saved : option error) :
  storePredictions v ps saved = storePredictions (seenByBatch v) ps saved.
Proof.
  destruct v as [| | | | elements |]; try done. cbn [seenByBatch storePredictions].
  generalize (@nil Prediction, saved).
  induction elements as [| e elements IH]; intros st; [done |].
  cbn [map foldl]. rewrite <- storePrediction_seenBy. apply IH.
Qed.

(** X14.  Two responses with status 200 and the same headers, whose
    bodies are read to their ends and are JSON values that differ only in
    members that name no field of [Prediction] and in the case of the
    letters of the keys: the single-name call returns the same answer for
    both. *)
Theorem other_members_and_key_case_are_ignored
    (client : Client) (name country : string) (w w' : World) (u : URL)
    (resp resp' : Response) (v v' : Value) :
  url_Parse (baseUrl client) = inr u ->
  exchange w DefaultClient (URL_String (predictURL client u name country)) = inr resp ->
  exchange w' DefaultClient (URL_String (predictURL client u name country)) = inr resp' ->
  StatusCode resp = StatusOK -> StatusCode resp' = StatusOK ->
  readError (Body resp) = None -> readError (Body resp') = None ->
  Header resp = Header resp' ->
  json_parse (content (Body resp)) = Some v ->
  json_parse (content (Body resp')) = Some v' ->
  seenBy v = seenBy v' ->
  (PredictWithCountry client name country w).1
  = (PredictWithCountry client name country w').1.
Proof.
  intros Hu Hresp Hresp' Hstatus Hstatus' Hread Hread' Hheader Hparse Hparse' Hseen.
  rewrite !(PredictWithCountry_unfold _ _ _ _ _ Hu), Hresp, Hresp'. cbn [fst].
  unfold classify, headerRateLimit.
  rewrite Hstatus, Hstatus', Z.eqb_refl, Hread, Hread', Hheader.
  unfold decoded, json_Unmarshal.
  change (bytes (Some ?b)) with b. rewrite Hparse, Hparse'.
  by rewrite (storePrediction_seenBy v), (storePrediction_seenBy v'), Hseen.
Qed.

Lemma other_members_and_key_case_are_ignored_witness :
  (Predict (NewClient []) "michael"
     (serving (respond 200 ∅
        (jsonText "{'Name':'michael','AGE':70,'count':233482,'name_id':7,'extra':{'age':1}}")))).1
  = (Predict (NewClient []) "michael"
       (serving (respond 200 ∅ (jsonText "{'name':'michael','age':70,'count':233482}")))).1.
Proof.
  exact (other_members_and_key_case_are_ignored (NewClient []) "michael" ""
           (serving (respond 200 ∅
              (jsonText "{'Name':'michael','AGE':70,'count':233482,'name_id':7,'extra':{'age':1}}")))
           (serving (respond 200 ∅ (jsonText "{'name':'michael','age':70,'count':233482}")))
           agifyURL _ _
           (JObject [("Name", JString "michael"); ("AGE", JNumber "70");
                     ("count", JNumber "233482"); ("name_id", JNumber "7");
                     ("extra", JObject [("age", JNumber "1")])])
           (JObject [("name", JString "michael"); ("age", JNumber "70");
                     ("count", JNumber "233482")])
           eq_refl eq_refl eq_refl eq_refl eq_refl eq_refl eq_refl eq_refl eq_refl eq_refl
           eq_refl).
Defined.

(** X15.  The same for the batch call: members of the elements that name
    no field, and the case of the keys, make no difference to the
    answer. *)
Theorem other_members_and_key_case_are_ignored_in_batch
    (client : Client) (names : list string) (country : string) (w w' : World) (u : URL)
    (resp resp' : Response) (v v' : Value) :
  url_Parse (baseUrl client) = inr u ->
  exchange w DefaultClient (URL_String (batchPredictURL client u names country)) = inr resp ->
  exchange w' DefaultClient (URL_String (batchPredictURL client u names country)) = inr resp' ->
  StatusCode resp = StatusOK -> StatusCode resp' = StatusOK ->
  readError (Body resp) = None -> readError (Body resp') = None ->
  Header resp = Header resp' ->
  json_parse (content (Body resp)) = Some v ->
  json_parse (content (Body resp')) = Some v' ->
  seenByBatch v = seenByBatch v' ->
  (BatchPredictWithCountry client names country w).1
  = (BatchPredictWithCountry client names country w').1.
Proof.
  intros Hu Hresp Hresp' Hstatus Hstatus' Hread Hread' Hheader Hparse Hparse' Hseen.
  rewrite !(BatchPredictWithCountry_unfold _ _ _ _ _ Hu), Hresp, Hresp'. cbn [fst].
  unfold classify, headerRateLimit.
  rewrite Hstatus, Hstatus', Z.eqb_refl, Hread, Hread', Hheader.
  unfold decoded, json_Unmarshal.
  change (bytes (Some ?b)) with b. rewrite Hparse, Hparse'.
  by rewrite (storePredictions_seenByBatch v), (storePredictions_seenByBatch v'), Hseen.
Qed.

Lemma other_members_and_key_case_are_ignored_in_batch_witness :
  (BatchPredict (NewClient []) ["michael"; "peter"]
     (serving (respond 200 ∅
        (jsonText "[{'NAME':'michael','age':70,'id':1},{'rank':2,'Name':'peter','Age':66}]")))).1
  = (BatchPredict (NewClient []) ["michael"; "peter"]
       (serving (respond 200 ∅
          (jsonText "[{'name':'michael','age':70},{'name':'peter','age':66}]")))).1.
Proof.
  exact (other_members_and_key_case_are_ignored_in_batch (NewClient []) ["michael"; "peter"] ""
           (serving (respond 200 ∅
              (jsonText "[{'NAME':'michael','age':70,'id':1},{'rank':2,'Name':'peter','Age':66}]")))
           (serving (respond 200 ∅
              (jsonText "[{'name':'michael','age':70},{'name':'peter','age':66}]")))
           agifyURL _ _
           (JArray [JObject [("NAME", JString "michael"); ("age", JNumber "70");
                             ("id", JNumber "1")];
                    JObject [("rank", JNumber "2"); ("Name", JString "peter");
                             ("Age", JNumber "66")]])
           (JArray [JObject [("name", JString "michael"); ("age", JNumber "70")];
                    JObject [("name", JString "peter"); ("age", JNumber "66")]])
           eq_refl eq_refl eq_refl eq_refl eq_refl eq_refl eq_refl eq_refl eq_refl eq_refl
           eq_refl).
Defined.

(** ** What a body with another status is read as *)

Lemma storeErrorField_fits (r : errorResponse) (saved : option error) (m : string * Value) :
  fitsErrorResponse [m] = true ->
  storeErrorField (r, saved) m = ({| Error := asString (Error r) (jsonField "error" [m]) |}, saved).
Proof.
  destruct m as [key v], r as [message].
  unfold fitsErrorResponse, storeErrorField. rewrite jsonField_one. simpl.
  rewrite andb_true_r. destruct (foldEq key "error"); [| done].
  destruct v; simpl; try discriminate; reflexivity.
Qed.

Lemma storeErrorField_saved (r : errorResponse) (e : error) (m : string * Value) :
  (storeErrorField (r, Some e) m).2 = Some e.
Proof.
  destruct m as [key v]. unfold storeErrorField. destruct (foldEq key "error"); [| done].
  pose proof (storeString_saved "error" v (Error r) e).
  by destruct (storeString "error" v (Error r) (Some e)).
Qed.

Lemma storeErrorField_misfit (r : errorResponse) (m : string * Value) :
  fitsErrorResponse [m] = false ->
  isTypeError (storeErrorField (r, None) m).2 = true.
Proof.
  destruct m as [key v]. unfold fitsErrorResponse, storeErrorField. simpl.
  rewrite andb_true_r. destruct (foldEq key "error"); [| done].
  intros Hfit. pose proof (storeString_misfit "error" v (Error r) Hfit).
  by destruct (storeString "error" v (Error r) None).
Qed.

Lemma storeErrorResponse_members (members : list (string * Value)) :
  fitsErrorResponse members = true ->
  forall (r : errorResponse) (saved : option error),
    foldl storeErrorField (r, saved) members
    = ({| Error := asString (Error r) (jsonField "error" members) |}, saved).
Proof.
  induction members as [| m members IH] using rev_ind; intros Hfit r saved.
  - by destruct r.
  - unfold fitsErrorResponse in Hfit. rewrite forallb_app in Hfit.
    apply andb_true_iff in Hfit as [Hfit Hm].
    rewrite foldl_app, (IH Hfit). cbn [foldl].
    rewrite (storeErrorField_fits _ _ _ Hm). cbn [Error].
    rewrite asString_snoc; [done |].
    intros Hkey. unfold fitsErrorResponse in Hm. simpl in Hm.
    by rewrite Hkey, andb_true_r in Hm.
Qed.

Lemma storeErrorResponse_fold_saved (members : list (string * Value)) (r : errorResponse)
    (e : error) :
  (foldl storeErrorField (r, Some e) members).2 = Some e.
Proof.
  revert r. induction members as [| m members IH]; intros r; [done |].
  cbn [foldl]. pose proof (storeErrorField_saved r e m) as Hm.
  destruct (storeErrorField (r, Some e) m) as [r' s]. simpl in Hm. subst s.
  apply IH.
Qed.

Lemma storeErrorResponse_fold_misfit (members : list (string * Value)) (r : errorResponse) :
  fitsErrorResponse members = false ->
  isTypeError (foldl storeErrorField (r, None) members).2 = true.
Proof.
  revert r. induction members as [| m members IH]; intros r; [done |].
  replace (fitsErrorResponse (m :: members))
    with (fitsErrorResponse [m] && fitsErrorResponse members)
    by (unfold fitsErrorResponse; cbn [forallb]; by rewrite andb_true_r).
  destruct (fitsErrorResponse [m]) eqn:Hm.
  - cbn [andb foldl]. rewrite (storeErrorField_fits _ _ _ Hm). intros Hfit. by apply IH.
  - intros _. cbn [foldl].
    pose proof (storeErrorField_misfit r m Hm) as Herr.
    destruct (storeErrorField (r, None) m) as [r' [e |]]; [| done].
    rewrite storeErrorResponse_fold_saved. exact Herr.
Qed.

(** The error that a body with a status other than 200 stands for, by
    what the body is. *)
Lemma payloadError_by_json_value (body : string) :
  match json_parse body with
  | None => payloadError body = json_SyntaxError
  | Some (JObject members) =>
      if fitsErrorResponse members
      then payloadError body = errorString (asString "" (jsonField "error" members))
      else isTypeError (Some (payloadError body)) = true
  | Some JNull => payloadError body = errorString ""
  | Some v => payloadError body = json_UnmarshalTypeError (describeKind v) ""
  end.
Proof.
  unfold payloadError, json_Unmarshal.
  destruct (json_parse body) as [[| b | literal | s | elements | members] |]; try done.
  cbn [storeErrorResponse]. destruct (fitsErrorResponse members) eqn:Hfit.
  - by rewrite (storeErrorResponse_members _ Hfit).
  - pose proof (storeErrorResponse_fold_misfit members zeroErrorResponse Hfit) as Herr.
    by destruct (foldl storeErrorField (zeroErrorResponse, None) members) as [r [e |]].
Qed.

(** X16.  A response with a status other than 200, whether or not the
    reading of its body failed: both methods return a nil result, the
    rate limit of the headers and an error.  When the bytes read are not
    JSON the error is a syntax error.  When they are an object whose
    [error] members are strings or [null], the error has the text of the
    last such string as its message, and the empty message when there is
    none; [null] gives the empty message as well.  An object with an
    [error] member of another type gives a type error, and so does every
    other value. *)
Theorem error_message_by_json_value
    (client : Client) (name country : string) (names : list string)
    (w : World) (u : URL) (resp : Response) :
  url_Parse (baseUrl client) = inr u ->
  StatusCode resp <> StatusOK ->
  exchange w DefaultClient (URL_String (predictURL client u name country)) = inr resp ->
  exchange w DefaultClient (URL_String (batchPredictURL client u names country)) = inr resp ->
  exists err : error,
    (PredictWithCountry client name country w).1
    = Return (None, Some (headerRateLimit resp), Some err)
    /\ (BatchPredictWithCountry client names country w).1
       = Return (None, Some (headerRateLimit resp), Some err)
    /\ match json_parse (content (Body resp)) with
       | None => err = json_SyntaxError
       | Some (JObject members) =>
           if fitsErrorResponse members
           then err = errorString (asString "" (jsonField "error" members))
           else isTypeError (Some err) = true
       | Some JNull => err = errorString ""
       | Some v => err = json_UnmarshalTypeError (describeKind v) ""
       end.
Proof.
  intros Hu Hstatus Hsingle Hbatch. exists (payloadError (content (Body resp))).
  rewrite (PredictWithCountry_unfold _ _ _ _ _ Hu), Hsingle.
  rewrite (BatchPredictWithCountry_unfold _ _ _ _ _ Hu), Hbatch. cbn [fst].
  rewrite (classify_not_ok _ Hstatus). repeat split.
  apply payloadError_by_json_value.
Qed.

Lemma error_message_by_json_value_witness :
  exists err : error,
    (Predict (NewClient []) "michael"
       (serving (respond 500 ∅ (jsonText "{'message':'no such field','error':null}")))).1
    = Return (None, Some {| Limit := ""; Remaining := ""; Reset := "" |}, Some err)
    /\ (BatchPredict (NewClient []) ["michael"]
          (serving (respond 500 ∅ (jsonText "{'message':'no such field','error':null}")))).1
       = Return (None, Some {| Limit := ""; Remaining := ""; Reset := "" |}, Some err)
    /\ err = errorString "".
Proof.
  exact (error_message_by_json_value (NewClient []) "michael" "" ["michael"]
           (serving (respond 500 ∅ (jsonText "{'message':'no such field','error':null}")))
           agifyURL
           (respond 500 ∅ (jsonText "{'message':'no such field','error':null}"))
           eq_refl ltac:(discriminate) eq_refl eq_refl).
Defined.

(** ** What of a response reaches the caller *)

(** X17.  The answer of both methods depends on a response only through
    whether its status is 200, the three rate limit headers, the bytes
    read from its body and, when the status is 200, the error that ended
    the reading.  The status code itself, the other headers and a read
    error under another status are not reported. *)
Theorem answer_depends_on_four_things
    (client : Client) (name country : string) (names : list string)
    (w w' : World) (u : URL) (resp resp' : Response) :
  url_Parse (baseUrl client) = inr u ->
  exchange w DefaultClient (URL_String (predictURL client u name country)) = inr resp ->
  exchange w' DefaultClient (URL_String (predictURL client u name country)) = inr resp' ->
  exchange w DefaultClient (URL_String (batchPredictURL client u names country)) = inr resp ->
  exchange w' DefaultClient (URL_String (batchPredictURL client u names country)) = inr resp' ->
  (StatusCode resp =? StatusOK) = (StatusCode resp' =? StatusOK) ->
  Header_Get (Header resp) "X-Rate-Limit-Limit" = Header_Get (Header resp') "X-Rate-Limit-Limit" ->
  Header_Get (Header resp) "X-Rate-Limit-Remaining"
  = Header_Get (Header resp') "X-Rate-Limit-Remaining" ->
  Header_Get (Header resp) "X-Rate-Reset" = Header_Get (Header resp') "X-Rate-Reset" ->
  content (Body resp) = content (Body resp') ->
  (StatusCode resp = StatusOK -> readError (Body resp) = readError (Body resp')) ->
  (PredictWithCountry client name country w).1 = (PredictWithCountry client name country w').1
  /\ (BatchPredictWithCountry client names country w).1
     = (BatchPredictWithCountry client names country w').1.
Proof.
  intros Hu Hsingle Hsingle' Hbatch Hbatch' Hstatus Hlimit Hremaining Hreset Hcontent Hread.
  rewrite !(PredictWithCountry_unfold _ _ _ _ _ Hu), Hsingle, Hsingle'.
  rewrite !(BatchPredictWithCountry_unfold _ _ _ _ _ Hu), Hbatch, Hbatch'. cbn [fst].
  assert (classify resp = classify resp') as ->; [| done].
  unfold classify, payloadError, headerRateLimit.
  rewrite <- Hstatus, <- Hlimit, <- Hremaining, <- Hreset, <- Hcontent.
  destruct (Z.eqb_spec (StatusCode resp) StatusOK) as [Hok |]; [| done].
  by rewrite <- (Hread Hok).
Qed.

Lemma answer_depends_on_four_things_witness :
  (Predict (NewClient []) "michael" (serving unauthorized401)).1
  = (Predict (NewClient []) "michael"
       (serving {| StatusCode := 503;
                   Header := Header_Set ∅ "Retry-After" "120";
                   Body := {| content := content (Body unauthorized401);
                              readError := Some io_ErrUnexpectedEOF |} |})).1
  /\ (BatchPredict (NewClient []) ["michael"] (serving unauthorized401)).1
     = (BatchPredict (NewClient []) ["michael"]
          (serving {| StatusCode := 503;
                      Header := Header_Set ∅ "Retry-After" "120";
                      Body := {| content := content (Body unauthorized401);
                                 readError := Some io_ErrUnexpectedEOF |} |})).1.
Proof.
  apply (answer_depends_on_four_things (NewClient []) "michael" "" ["michael"]
           (serving unauthorized401)
           (serving {| StatusCode := 503;
                       Header := Header_Set ∅ "Retry-After" "120";
                       Body := {| content := content (Body unauthorized401);
                                  readError := Some io_ErrUnexpectedEOF |} |})
           agifyURL unauthorized401
           {| StatusCode := 503;
              Header := Header_Set ∅ "Retry-After" "120";
              Body := {| content := content (Body unauthorized401);
                         readError := Some io_ErrUnexpectedEOF |} |});
    try (vm_compute; reflexivity).
  intros Hok. discriminate Hok.
Defined.

(** ** The text of the URL that is sent *)

Lemma string_app_assoc (a b c : string) : (a +:+ b) +:+ c = a +:+ (b +:+ c).
Proof.
  induction a as [| x a IH]; [done |].
  change (String x ((a +:+ b) +:+ c) = String x (a +:+ b +:+ c)). by rewrite IH.
Qed.

Lemma string_app_empty (a : string) : a +:+ "" = a.
Proof.
  induction a as [| x a IH]; [done |]. change (String x (a +:+ "") = String x a).
  by rewrite IH.
Qed.

Lemma URL_String_setRawQuery (u : URL) (q : string) :
  q <> "" ->
  URL_String (setRawQuery u q) = URL_String (withoutQuery u) +:+ "?" +:+ q +:+ fragmentText u.
Proof.
  intros Hq. apply String.eqb_neq in Hq.
  unfold URL_String, fragmentText, EscapedFragment, EscapedPath.
  cbn [setRawQuery withoutQuery Scheme Opaque User Host Path RawPath OmitHost ForceQuery
         RawQuery Fragment RawFragment].
  rewrite Hq, orb_true_r. change (String.eqb "" "") with true.
  cbn [negb orb]. rewrite !string_app_empty. by rewrite <- !string_app_assoc.
Qed.

Lemma Values_Encode_holds (v : Values) (key value : string) :
  value ∈ v !!! key -> Values_Encode v <> "".
Proof.
  intros Hin Hempty. pose proof (Encode_has_pair v key value Hin) as Hpiece.
  rewrite Hempty in Hpiece. by apply elem_of_nil in Hpiece.
Qed.

Lemma predictURL_has_query (client : Client) (u : URL) (name country : string) :
  RawQuery (predictURL client u name country) <> "".
Proof.
  unfold predictURL. cbn [setRawQuery RawQuery]. apply (Values_Encode_holds _ "name" name).
  destruct (String.eqb country ""), (String.eqb (apiKey client) ""); simpl; add_lookup;
    set_solver.
Qed.

Lemma batchPredictURL_has_query (client : Client) (u : URL) (names : list string)
    (country : string) :
  RawQuery (batchPredictURL client u names country) <> "".
Proof.
  unfold batchPredictURL. cbn [setRawQuery RawQuery].
  apply (Values_Encode_holds _ "country_id" country).
  destruct (String.eqb (apiKey client) ""); simpl; add_lookup; set_solver.
Qed.

(** X18.  Every request has a query.  The URL that is sent is the base
    URL as [String] prints it without its query and fragment, then [?]
    and the query of the request, then the fragment of the base URL. *)
Theorem sent_url_keeps_base_and_fragment
    (client : Client) (name country : string) (names : list string) (w : World) (u : URL) :
  url_Parse (baseUrl client) = inr u ->
  RawQuery (predictURL client u name country) <> ""
  /\ RawQuery (batchPredictURL client u names country) <> ""
  /\ sent (PredictWithCountry client name country w).2
     = sent w ++ [(DefaultClient,
                   URL_String (withoutQuery u) +:+ "?"
                   +:+ RawQuery (predictURL client u name country) +:+ fragmentText u)]
  /\ sent (BatchPredictWithCountry client names country w).2
     = sent w ++ [(DefaultClient,
                   URL_String (withoutQuery u) +:+ "?"
                   +:+ RawQuery (batchPredictURL client u names country) +:+ fragmentText u)].
Proof.
  intros Hu.
  pose proof (predictURL_has_query client u name country) as Hsingle.
  pose proof (batchPredictURL_has_query client u names country) as Hbatch.
  repeat split; try done.
  - rewrite (PredictWithCountry_sent _ _ _ _ _ Hu).
    by rewrite <- (URL_String_setRawQuery u _ Hsingle).
  - rewrite (BatchPredictWithCountry_sent _ _ _ _ _ Hu).
    by rewrite <- (URL_String_setRawQuery u _ Hbatch).
Qed.

Lemma sent_url_keeps_base_and_fragment_witness :
  sent (Predict (NewClient [WithUrl "https://api.agify.io/v1?lang=en#top"]) "michael"
          (serving michael200)).2
  = [(DefaultClient, "https://api.agify.io/v1?lang=en&name=michael#top")]
  /\ sent (BatchPredict (NewClient [WithUrl "https://api.agify.io/v1?lang=en#top"]) []
             (serving michael200)).2
     = [(DefaultClient, "https://api.agify.io/v1?country_id=&lang=en#top")].
Proof.
  pose proof (sent_url_keeps_base_and_fragment
                (NewClient [WithUrl "https://api.agify.io/v1?lang=en#top"]) "michael" "" []
                (serving michael200)
                {| Scheme := "https"; Opaque := ""; User := None; Host := "api.agify.io";
                   Path := "/v1"; RawPath := ""; OmitHost := false; ForceQuery := false;
                   RawQuery := "lang=en"; Fragment := "top"; RawFragment := "" |}
                ltac:(vm_compute; reflexivity)) as (_ & _ & Hsingle & Hbatch).
  split; [exact Hsingle | exact Hbatch].
Defined.
